(** * Solar shadow calculator: the four report scripts and their geometry

    The repository holds four near-duplicate Python scripts (CL, DS, GE, CG)
    that compute the noon shadow of a vertical obstacle on the solstices and
    equinoxes.  Each script is embedded below in a module of its own, function
    by function.

    Python [float] values are idealised as real numbers ([R]); the one
    non-finite value the scripts create, [float('inf')], is a constructor of
    its own.  Python exceptions are results of the error monad [Py.result].
    A second, smaller embedding over binary64 floats ([B64]) keeps the
    rounding of the elevation formula, which the real-number embedding
    cannot see. *)

From Stdlib Require Import Reals Lra Lia List String Bool ZArith.
From Stdlib Require Floats.
Import ListNotations.

Open Scope R_scope.

(** ** The Python fragment the scripts use *)

Module Py.

(** The exceptions the scripts can raise: two from the arithmetic, one
    from indexing a list. *)
Inductive exn : Type :=
| ZeroDivisionError
| ValueError
| IndexError.

Inductive result (A : Type) : Type :=
| Ok (a : A)
| Raise (e : exn).

Arguments Ok {A} a.
Arguments Raise {A} e.

Definition bind {A B : Type} (m : result A) (k : A -> result B) : result B :=
  match m with
  | Ok a => k a
  | Raise e => Raise e
  end.

(** A [float]: a finite value or [float('inf')]. *)
Inductive pyfloat : Type :=
| Finite (x : R)
| Infinite.

(** [math.radians] and [math.degrees] multiply by a constant. *)
Definition radians (x : R) : R := x * (PI / 180).
Definition degrees (x : R) : R := x * (180 / PI).

(** [math.asin] raises [ValueError] ("math domain error") outside
    [[-1, 1]]. *)
Definition math_asin (x : R) : result R :=
  if Rlt_dec x (-1) then Raise ValueError
  else if Rlt_dec 1 x then Raise ValueError
  else Ok (asin x).

(** [a / b] on floats raises [ZeroDivisionError] when [b] is zero. *)
Definition truediv (a b : R) : result R :=
  if Req_dec_T b 0 then Raise ZeroDivisionError else Ok (a / b).

(** The builtins [min(a, b)] and [max(a, b)] keep the first argument
    unless the second is strictly smaller (larger). *)
Definition py_min (a b : R) : R := if Rlt_dec b a then b else a.
Definition py_max (a b : R) : R := if Rlt_dec a b then b else a.

(** [x in [s1, ..., sn]] on strings. *)
Definition contains (l : list string) (x : string) : bool :=
  existsb (String.eqb x) l.

(** A [dict] with string keys: the entries in insertion order.
    Assigning to a key that is present replaces the value in place;
    a new key goes to the end. *)
Definition dict (V : Type) : Type := list (string * V).

Fixpoint setitem {V : Type} (d : dict V) (k : string) (v : V) : dict V :=
  match d with
  | [] => [(k, v)]
  | (k', v') :: d' =>
      if String.eqb k' k then (k', v) :: d' else (k', v') :: setitem d' k v
  end.

Definition items {V : Type} (d : dict V) : list (string * V) := d.
Definition keys {V : Type} (d : dict V) : list string := map fst d.
Definition values {V : Type} (d : dict V) : list V := map snd d.

(** A dict display [{k1: v1, ..., kn: vn}]. *)
Definition dict_display {V : Type} (l : list (string * V)) : dict V :=
  fold_left (fun d kv => setitem d (fst kv) (snd kv)) l [].

(** [for x in l: body], threading the variables the body assigns. *)
Fixpoint for_each {A S : Type} (l : list A) (body : S -> A -> result S)
  (s : S) : result S :=
  match l with
  | [] => Ok s
  | x :: l' => bind (body s x) (for_each l' body)
  end.

(** [d[k]]; [None] stands for [KeyError]. *)
Fixpoint getitem {V : Type} (d : dict V) (k : string) : option V :=
  match d with
  | [] => None
  | (k', v) :: d' => if String.eqb k' k then Some v else getitem d' k
  end.


(** [max(l)] on a list of finite floats: [ValueError] on an empty list,
    the first largest element otherwise. *)
Definition max_list (l : list R) : result R :=
  match l with
  | [] => Raise ValueError
  | x :: l' => Ok (fold_left py_max l' x)
  end.

(** [a < b] on floats, [float('inf')] being above every finite value. *)
Definition pyfloat_lt (a b : pyfloat) : bool :=
  match a, b with
  | Finite x, Finite y => if Rlt_dec x y then true else false
  | Finite _, Infinite => true
  | Infinite, _ => false
  end.

(** [max(l, key=key)] and [min(l, key=key)]: [ValueError] on an empty
    list, the first extremal element otherwise. *)
Definition max_by {A : Type} (key : A -> pyfloat) (l : list A) : result A :=
  match l with
  | [] => Raise ValueError
  | x :: l' =>
      Ok (fold_left (fun m y => if pyfloat_lt (key m) (key y) then y else m)
            l' x)
  end.

Definition min_by {A : Type} (key : A -> pyfloat) (l : list A) : result A :=
  match l with
  | [] => Raise ValueError
  | x :: l' =>
      Ok (fold_left (fun m y => if pyfloat_lt (key y) (key m) then y else m)
            l' x)
  end.

(** [l[i]] on a list, for an index that is not negative: [IndexError]
    from the length of the list on. *)
Definition getindex {A : Type} (l : list A) (i : nat) : result A :=
  match nth_error l i with
  | Some x => Ok x
  | None => Raise IndexError
  end.

(** [enumerate(l)]: the elements with their positions, counted from 0. *)
Fixpoint enumerate_from {A : Type} (i : nat) (l : list A) : list (nat * A) :=
  match l with
  | [] => []
  | x :: l' => (i, x) :: enumerate_from (S i) l'
  end.

Definition enumerate {A : Type} (l : list A) : list (nat * A) :=
  enumerate_from 0 l.

End Py.

Import Py.

Declare Scope py_scope.
Delimit Scope py_scope with py.
Notation "x <- m ;; k" := (bind m (fun x => k))
  (at level 61, m at next level, right associativity) : py_scope.
Open Scope py_scope.

(** ** CL_shadow_calculator.py: class [SolarShadowAnalyzer] *)

Module CL.

Record season : Type := { day : Z; name : string }.

Record SolarShadowAnalyzer : Type := {
  latitude : R;
  longitude : R;
  obstacle_height : R;
  seasons : dict season
}.

(** [__init__] *)
Definition init (latitude longitude obstacle_height : R)
  : SolarShadowAnalyzer :=
  {| latitude := latitude;
     longitude := longitude;
     obstacle_height := obstacle_height;
     seasons := dict_display
       [ ("Solstício de Verão"%string,
           {| day := 355; name := "Verão (21 Dez)" |});
         ("Equinócio de Outono"%string,
           {| day := 80; name := "Outono (21 Mar)" |});
         ("Solstício de Inverno"%string,
           {| day := 172; name := "Inverno (21 Jun)" |});
         ("Equinócio de Primavera"%string,
           {| day := 266; name := "Primavera (23 Set)" |}) ] |}.

Definition dms_to_decimal (degrees minutes seconds : R) (direction : string)
  : R :=
  let decimal := degrees + minutes / 60 + seconds / 3600 in
  if contains ["S"%string; "W"%string] direction then - decimal else decimal.

Definition solar_declination (self : SolarShadowAnalyzer) (day_of_year : Z)
  : R :=
  23.45 * sin (radians (IZR (360 * (284 + day_of_year)) / 365)).

Definition solar_hour_angle (self : SolarShadowAnalyzer) (hour : R) : R :=
  15 * (hour - 12).

(** The sum goes to [math.asin] as it is.  Over [R] it never leaves
    [[-1, 1]]; the rounded sum of the code can, by one unit in the last
    place, when the sun is at or next to the zenith (see [B64]).  What is
    stated below about the value returned is therefore stated for the
    case that a value is returned. *)
Definition solar_elevation (self : SolarShadowAnalyzer)
  (declination hour_angle : R) : result R :=
  let lat_rad := radians (latitude self) in
  let dec_rad := radians declination in
  let hour_rad := radians hour_angle in
  elevation_rad <- math_asin
    (sin lat_rad * sin dec_rad + cos lat_rad * cos dec_rad * cos hour_rad) ;;
  Ok (degrees elevation_rad).

Definition shadow_length (self : SolarShadowAnalyzer)
  (solar_elevation_deg : R) : result pyfloat :=
  if Rle_dec solar_elevation_deg 0 then Ok Infinite
  else
    let elevation_rad := radians solar_elevation_deg in
    q <- truediv (obstacle_height self) (tan elevation_rad) ;;
    Ok (Finite q).

Record season_result : Type := {
  declination : R;
  elevation : R;
  shadow_len : pyfloat;
  display_name : string
}.

(** The body of the loop of [calculate_seasonal_shadows]; the default
    [hour_angle=0] is written out. *)
Definition season_step (self : SolarShadowAnalyzer)
  (results : dict season_result) (item : string * season)
  : result (dict season_result) :=
  let (season, data) := item in
  let declination := solar_declination self (day data) in
  elevation <- solar_elevation self declination 0 ;;
  shadow_len <- shadow_length self elevation ;;
  Ok (setitem results season
        {| declination := declination;
           elevation := elevation;
           shadow_len := shadow_len;
           display_name := name data |}).

Definition calculate_seasonal_shadows (self : SolarShadowAnalyzer)
  : result (dict season_result) :=
  for_each (items (seasons self)) (season_step self) [].

(** The two figures of the report's main result:
    [max(results.values(), key=lambda x: x['shadow_length'])['shadow_length']]
    and the same with [min]. *)
Definition report_max_shadow (results : dict season_result) : result pyfloat :=
  r <- max_by shadow_len (values results) ;;
  Ok (shadow_len r).

Definition report_min_shadow (results : dict season_result) : result pyfloat :=
  r <- min_by shadow_len (values results) ;;
  Ok (shadow_len r).

(** The analyzer [main] creates. *)
Definition main_analyzer : SolarShadowAnalyzer :=
  let lat_decimal := -21 - 44 / 60 - 21.3 / 3600 in
  let lon_decimal := -48 - 6 / 60 - 21.4 / 3600 in
  let obstacle_height := 1.65 in
  init lat_decimal lon_decimal obstacle_height.

End CL.

(** ** DS_python_20250720_baee44.py *)

Module DS.

Definition graus_para_decimal (graus minutos segundos : R) (direcao : string)
  : R :=
  let decimal := graus + minutos / 60 + segundos / 3600 in
  if contains ["S"%string; "W"%string] direcao then decimal * -1 else decimal.

Definition calcular_declinacao_solar (dia_ano : Z) : R :=
  23.45 * sin (radians (IZR (360 * (284 + dia_ano)) / 365)).

(** As in CL, the sum goes to [math.asin] unclamped: the rounded sum of
    the code can exceed 1 at or next to the zenith (see [B64]). *)
Definition calcular_elevacao_solar (latitude declinacao angulo_horario : R)
  : result R :=
  let lat_rad := radians latitude in
  let dec_rad := radians declinacao in
  a <- math_asin
    (sin lat_rad * sin dec_rad
     + cos lat_rad * cos dec_rad * cos (radians angulo_horario)) ;;
  Ok (degrees a).

Definition calcular_comprimento_sombra (altura elevacao_solar : R)
  : result pyfloat :=
  if Rle_dec elevacao_solar 0 then Ok Infinite
  else
    q <- truediv altura (tan (radians elevacao_solar)) ;;
    Ok (Finite q).

Record estacao_info : Type := { data : string; dia_ano : Z }.

Definition datas_estacoes : dict estacao_info :=
  dict_display
    [ ("Solstício de Verão"%string,
        {| data := "2023-12-21"; dia_ano := 355 |});
      ("Solstício de Inverno"%string,
        {| data := "2023-06-21"; dia_ano := 172 |});
      ("Equinócio de Primavera"%string,
        {| data := "2023-09-23"; dia_ano := 266 |});
      ("Equinócio de Outono"%string,
        {| data := "2023-03-20"; dia_ano := 79 |}) ].

(** [dados_entrada]: the latitude and the obstacle height. *)
Definition latitude_decimal : R := graus_para_decimal 21 44 21.3 "S".
Definition altura_obstaculo : R := 1.65.

Record resultado : Type := {
  declinacao : R;
  elevacao_solar : R;
  comprimento_sombra : pyfloat;
  data_estacao : string
}.

(** The body of the loop that fills [resultados]. *)
Definition resultados_step (latitude_decimal altura_obstaculo : R)
  (resultados : dict resultado) (item : string * estacao_info)
  : result (dict resultado) :=
  let (estacao, info) := item in
  let declinacao := calcular_declinacao_solar (dia_ano info) in
  elevacao <- calcular_elevacao_solar latitude_decimal declinacao 0 ;;
  comprimento_sombra <-
    calcular_comprimento_sombra altura_obstaculo elevacao ;;
  Ok (setitem resultados estacao
        {| declinacao := declinacao;
           elevacao_solar := elevacao;
           comprimento_sombra := comprimento_sombra;
           data_estacao := data info |}).

(** [resultados = {}] followed by the loop over [datas_estacoes.items()]. *)
Definition resultados_loop (latitude_decimal altura_obstaculo : R)
  (datas_estacoes : dict estacao_info) : result (dict resultado) :=
  for_each (items datas_estacoes)
    (resultados_step latitude_decimal altura_obstaculo) [].

(** [gerar_diagrama_sombra]: what it hands to the plot.  The loop runs
    over [enumerate(resultados.items())]; an infinite shadow is skipped, a
    finite one is drawn from 0.25 to [0.25 + comprimento/5] in the colour
    [colors[i]], where [i] is the position of the entry in the dict and
    [colors] has four elements.  After the loop the upper x-limit is
    [max([r["comprimento_sombra"]/5 for r in resultados.values()
          if r["comprimento_sombra"] != float('inf')]) + 1]. *)
Definition colors : list string :=
  ["red"%string; "blue"%string; "green"%string; "purple"%string].

Definition sombra_fim (comprimento : R) : R := 0.25 + comprimento / 5.

(** A shadow line of the diagram: its label, where it ends and its
    colour. *)
Record linha : Type := { rotulo : string; fim : R; cor : string }.

(** The body of the loop; [linhas] are the shadow lines drawn so far. *)
Definition diagrama_step (linhas : list linha)
  (entry : nat * (string * resultado)) : result (list linha) :=
  let '(i, (estacao, info)) := entry in
  match comprimento_sombra info with
  | Infinite => Ok linhas
  | Finite comprimento =>
      c <- getindex colors i ;;
      Ok (linhas ++ [{| rotulo := estacao;
                        fim := sombra_fim comprimento;
                        cor := c |}])
  end.

Definition sombras_em_escala (resultados : dict resultado) : list R :=
  flat_map
    (fun r =>
       match comprimento_sombra r with
       | Finite c => [c / 5]
       | Infinite => []
       end)
    (values resultados).

(** The lines drawn and the upper x-limit. *)
Definition gerar_diagrama_sombra (resultados : dict resultado)
  : result (list linha * R) :=
  linhas <- for_each (enumerate (items resultados)) diagrama_step [] ;;
  m <- max_list (sombras_em_escala resultados) ;;
  Ok (linhas, m + 1).

End DS.

(** ** GE_shadow_calculator.py

    This script works in radians: its declination and its elevation are
    radian values, converted with [math.degrees] for display only. *)

Module GE.

Definition dms_to_decimal (degrees minutes seconds : R) (direction : string)
  : R :=
  let decimal_degrees := degrees + minutes / 60 + seconds / 3600 in
  if contains ["S"%string; "W"%string] direction then - decimal_degrees
  else decimal_degrees.

Definition calculate_solar_declination (day_of_year : Z) : R :=
  0.409 * sin (((2 * PI / 365) * IZR day_of_year) - 1.39).

Definition calculate_hour_angle
  (local_time_decimal longitude standard_meridian : R) : R := 0.

Definition calculate_solar_elevation (latitude declination hour_angle : R)
  : result R :=
  let lat_rad := radians latitude in
  let sin_alpha :=
    (sin lat_rad * sin declination)
    + (cos lat_rad * cos declination * cos hour_angle) in
  let sin_alpha := py_max (-1) (py_min 1 sin_alpha) in
  elevation_rad <- math_asin sin_alpha ;;
  Ok (if Rlt_dec 0 elevation_rad then elevation_rad else 0).

Definition calculate_shadow_length (obstacle_height solar_elevation : R)
  : result pyfloat :=
  if Rle_dec solar_elevation 0 then Ok Infinite
  else
    q <- truediv obstacle_height (tan solar_elevation) ;;
    Ok (Finite q).

Record details : Type := {
  declinacao_solar_graus : R;
  angulo_horario_graus : R;
  elevacao_solar_graus : R;
  comprimento_da_sombra : pyfloat
}.

(** The module-level variables the seasonal block reads and writes. *)
Record globals : Type := {
  latitude : R;
  longitude : R;
  obstacle_height : R;
  seasons : dict Z;
  shadow_results : dict pyfloat;
  calculation_details : dict details
}.

Definition seasons_display : dict Z :=
  dict_display
    [ ("Solstício de Verão (21 Dez)"%string, 355%Z);
      ("Solstício de Inverno (21 Jun)"%string, 172%Z);
      ("Equinócio de Primavera (22 Set)"%string, 265%Z);
      ("Equinócio de Outono (20 Mar)"%string, 79%Z) ].

(** The body of [for season, day_of_year in seasons.items()]. *)
Definition season_step (g : globals) (item : string * Z) : result globals :=
  let (season, day_of_year) := item in
  let declination := calculate_solar_declination day_of_year in
  let hour_angle := calculate_hour_angle 12 (longitude g) (-45) in
  solar_elevation <-
    calculate_solar_elevation (latitude g) declination hour_angle ;;
  shadow_length <-
    calculate_shadow_length (obstacle_height g) solar_elevation ;;
  Ok {| latitude := latitude g;
        longitude := longitude g;
        obstacle_height := obstacle_height g;
        seasons := seasons g;
        shadow_results := setitem (shadow_results g) season shadow_length;
        calculation_details :=
          setitem (calculation_details g) season
            {| declinacao_solar_graus := degrees declination;
               angulo_horario_graus := degrees hour_angle;
               elevacao_solar_graus := degrees solar_elevation;
               comprimento_da_sombra := shadow_length |} |}.

(** [shadow_results = {}], [calculation_details = {}] and the loop. *)
Definition seasonal_block (g : globals) : result globals :=
  for_each (items (seasons g)) season_step
    {| latitude := latitude g;
       longitude := longitude g;
       obstacle_height := obstacle_height g;
       seasons := seasons g;
       shadow_results := [];
       calculation_details := [] |}.

(** The longest finite shadow, for scaling the charts, with its fallback. *)
Definition max_shadow_for_scaling (shadow_results : dict pyfloat)
  (obstacle_height : R) : R :=
  let max_shadow_for_scaling :=
    fold_left
      (fun m length =>
         match length with
         | Finite x => py_max m x
         | Infinite => m
         end)
      (values shadow_results) 0 in
  if Req_dec_T max_shadow_for_scaling 0 then obstacle_height * 2
  else max_shadow_for_scaling.


(** The heights of the two bars of a season, in percent.  The divisor is
    positive where the division stands.  [None] is the [KeyError] of
    [shadow_results[season]]. *)
Definition obstacle_bar_height (obstacle_height max_shadow_for_scaling : R)
  : R :=
  if Rlt_dec 0 max_shadow_for_scaling
  then obstacle_height / max_shadow_for_scaling * 80
  else 0.

Definition shadow_bar_height (shadow_results : dict pyfloat)
  (max_shadow_for_scaling : R) (season : string) : option R :=
  if Rlt_dec 0 max_shadow_for_scaling then
    match getitem shadow_results season with
    | None => None
    | Some Infinite => Some 0
    | Some (Finite x) => Some (x / max_shadow_for_scaling * 80)
    end
  else Some 0.

(** The module-level variables as the script sets them before the
    seasonal block. *)
Definition script_globals : globals :=
  {| latitude := dms_to_decimal 21 44 21.3 "S";
     longitude := dms_to_decimal 48 6 21.4 "W";
     obstacle_height := 1.65;
     seasons := seasons_display;
     shadow_results := [];
     calculation_details := [] |}.

End GE.

(** ** CG_shadow_calculator.py *)

Module CG.

Definition latitude_deg : R := - (21 + 44 / 60 + 21.3 / 3600).
Definition longitude_deg : R := - (48 + 6 / 60 + 21.4 / 3600).
Definition altura_obstaculo : R := 1.65.

Definition estacoes : dict (Z * Z) :=
  dict_display
    [ ("Solstício de Verão"%string, (21, 12)%Z);
      ("Equinócio de Outono"%string, (20, 3)%Z);
      ("Solstício de Inverno"%string, (21, 6)%Z);
      ("Equinócio de Primavera"%string, (22, 9)%Z) ].

(** Lengths of the months of 2025, the year the script fixes. *)
Definition days_in_month_2025 : list Z :=
  [31; 28; 31; 30; 31; 30; 31; 31; 30; 31; 30; 31]%Z.

Definition sum_Z (l : list Z) : Z := fold_right Z.add 0%Z l.

(** [(datetime(2025, mes, dia) - datetime(2025, 1, 1)).days + 1];
    [datetime] raises [ValueError] on a date that does not exist. *)
Definition dia_juliano (dia mes : Z) : result Z :=
  if ((1 <=? mes) && (mes <=? 12))%Z then
    let m := Z.to_nat (mes - 1) in
    if ((1 <=? dia) && (dia <=? nth m days_in_month_2025 0))%Z then
      Ok (sum_Z (firstn m days_in_month_2025) + (dia - 1) + 1)%Z
    else Raise ValueError
  else Raise ValueError.

Definition declinacao_solar (dia mes : Z) : result R :=
  n <- dia_juliano dia mes ;;
  Ok (23.45 * sin (radians (360 / 365 * IZR (284 + n)))).

Definition elevacao_solar (lat decl : R) : R := 90 - Rabs (lat - decl).

Definition comprimento_sombra (altura elevacao_graus : R) : result pyfloat :=
  let elev_rad := radians elevacao_graus in
  q <- truediv altura (tan elev_rad) ;;
  Ok (Finite q).

Record resultado : Type := {
  declinacao : R;
  elevacao : R;
  sombra : pyfloat
}.

Definition resultados_step (resultados : dict resultado)
  (item : string * (Z * Z)) : result (dict resultado) :=
  let '(estacao, (dia, mes)) := item in
  decl <- declinacao_solar dia mes ;;
  let elev := elevacao_solar latitude_deg decl in
  sombra <- comprimento_sombra altura_obstaculo elev ;;
  Ok (setitem resultados estacao
        {| declinacao := decl; elevacao := elev; sombra := sombra |}).

Definition resultados : result (dict resultado) :=
  for_each (items estacoes) resultados_step [].

End CG.

(** ** The elevation functions over binary64 floats

    The elevation formula is the one place where the scripts guard (or do
    not guard) against rounding, so the three elevation functions are
    embedded a second time with the arithmetic of the machine: IEEE 754
    binary64, as CPython computes.  The C library functions behind
    [math.sin], [math.cos] and [math.asin] are not code of the repository;
    they are variables of the section. *)

Module B64.

Import Floats.
Local Open Scope float_scope.

Section Libm.

Variables libm_sin libm_cos libm_asin : float -> float.

(** [Py_MATH_PI], the double nearest to pi. *)
Definition pi : float := 0x1.921fb54442d18p+1.

Definition radians (x : float) : float := x * (pi / 180).
Definition degrees (x : float) : float := x * (180 / pi).

(** [math.sin] and [math.cos] raise [ValueError] on an infinite
    argument (the C function returns a NaN that the argument was not). *)
Definition math_sin (x : float) : result float :=
  if is_infinity x then Raise ValueError else Ok (libm_sin x).

Definition math_cos (x : float) : result float :=
  if is_infinity x then Raise ValueError else Ok (libm_cos x).

(** [math.asin] raises [ValueError] when the argument is below -1 or
    above 1; a NaN passes through. *)
Definition math_asin (x : float) : result float :=
  if (x <? -1) || (1 <? x) then Raise ValueError else Ok (libm_asin x).

Definition py_min (a b : float) : float := if b <? a then b else a.
Definition py_max (a b : float) : float := if a <? b then b else a.

(** CL: [SolarShadowAnalyzer.solar_elevation], [latitude] being
    [self.latitude]. *)
Definition CL_solar_elevation (latitude declination hour_angle : float)
  : result float :=
  let lat_rad := radians latitude in
  let dec_rad := radians declination in
  let hour_rad := radians hour_angle in
  s1 <- math_sin lat_rad ;;
  s2 <- math_sin dec_rad ;;
  c1 <- math_cos lat_rad ;;
  c2 <- math_cos dec_rad ;;
  c3 <- math_cos hour_rad ;;
  elevation_rad <- math_asin (s1 * s2 + c1 * c2 * c3) ;;
  Ok (degrees elevation_rad).

(** DS: [calcular_elevacao_solar]. *)
Definition DS_calcular_elevacao_solar
  (latitude declinacao angulo_horario : float) : result float :=
  let lat_rad := radians latitude in
  let dec_rad := radians declinacao in
  s1 <- math_sin lat_rad ;;
  s2 <- math_sin dec_rad ;;
  c1 <- math_cos lat_rad ;;
  c2 <- math_cos dec_rad ;;
  c3 <- math_cos (radians angulo_horario) ;;
  a <- math_asin (s1 * s2 + c1 * c2 * c3) ;;
  Ok (degrees a).

(** GE: [calculate_solar_elevation]; declination and hour angle are
    radians. *)
Definition GE_calculate_solar_elevation
  (latitude declination hour_angle : float) : result float :=
  let lat_rad := radians latitude in
  s1 <- math_sin lat_rad ;;
  s2 <- math_sin declination ;;
  c1 <- math_cos lat_rad ;;
  c2 <- math_cos declination ;;
  c3 <- math_cos hour_angle ;;
  let sin_alpha := (s1 * s2) + (c1 * c2 * c3) in
  let sin_alpha := py_max (-1) (py_min 1 sin_alpha) in
  elevation_rad <- math_asin sin_alpha ;;
  Ok (if 0 <? elevation_rad then elevation_rad else 0).

End Libm.

(** The values of the C library at [radians(12)], correctly rounded. *)
Definition sin_radians_12 : float := 0x1.a9cd9ac4258f6p-3.
Definition cos_radians_12 : float := 0x1.f4cfc327a0080p-1.

End B64.

(** ** Notions the statements below use *)

(** The argument of the inverse sine, as the scripts write it. *)
Definition sin_alpha (lat_rad dec_rad hour_rad : R) : R :=
  sin lat_rad * sin dec_rad + cos lat_rad * cos dec_rad * cos hour_rad.

(** The Cooper formula as the specification writes it, in degrees. *)
Definition cooper_degrees (n : Z) : R :=
  23.45 * sin (radians (360 / 365 * IZR (284 + n))).

(** Two outcomes agree: the same exception, or values related by [R]. *)
Definition result_rel {A B : Type} (R : A -> B -> Prop)
  (x : result A) (y : result B) : Prop :=
  match x, y with
  | Ok a, Ok b => R a b
  | Raise e, Raise e' => e = e'
  | _, _ => False
  end.

Definition result_map {A B : Type} (f : A -> B) (x : result A) : result B :=
  match x with
  | Ok a => Ok (f a)
  | Raise e => Raise e
  end.

(** What the seasonal block of GE leaves for the report. *)
Definition GE_outputs (g : GE.globals) : dict pyfloat * dict GE.details :=
  (GE.shadow_results g, GE.calculation_details g).

(** What the seasonal block of GE reads. *)
Definition GE_inputs (g : GE.globals) : R * R * R * dict Z :=
  (GE.latitude g, GE.longitude g, GE.obstacle_height g, GE.seasons g).

(** Two states of GE that differ only in the longitude. *)
Definition GE_same_but_longitude (g g' : GE.globals) : Prop :=
  GE.latitude g = GE.latitude g'
  /\ GE.obstacle_height g = GE.obstacle_height g'
  /\ GE_outputs g = GE_outputs g'.

(** The record a step of CL stores for a season, and the one of DS. *)
Definition CL_stored (self : CL.SolarShadowAnalyzer)
  (item : string * CL.season) (v : CL.season_result) : Prop :=
  exists (e : R) (L : pyfloat),
    CL.solar_elevation self
      (CL.solar_declination self (CL.day (snd item))) 0 = Ok e
    /\ CL.shadow_length self e = Ok L
    /\ v = {| CL.declination := CL.solar_declination self (CL.day (snd item));
              CL.elevation := e;
              CL.shadow_len := L;
              CL.display_name := CL.name (snd item) |}.

Definition DS_stored (lat h : R) (item : string * DS.estacao_info)
  (v : DS.resultado) : Prop :=
  exists (e : R) (L : pyfloat),
    DS.calcular_elevacao_solar lat
      (DS.calcular_declinacao_solar (DS.dia_ano (snd item))) 0 = Ok e
    /\ DS.calcular_comprimento_sombra h e = Ok L
    /\ v = {| DS.declinacao :=
                DS.calcular_declinacao_solar (DS.dia_ano (snd item));
              DS.elevacao_solar := e;
              DS.comprimento_sombra := L;
              DS.data_estacao := DS.data (snd item) |}.

(** What a step of GE stores in its two dicts. *)
Definition GE_stored_shadow (g : GE.globals) (item : string * Z)
  (L : pyfloat) : Prop :=
  exists e : R,
    GE.calculate_solar_elevation (GE.latitude g)
      (GE.calculate_solar_declination (snd item)) 0 = Ok e
    /\ GE.calculate_shadow_length (GE.obstacle_height g) e = Ok L.

Definition GE_stored_details (g : GE.globals) (item : string * Z)
  (d : GE.details) : Prop :=
  exists (e : R) (L : pyfloat),
    GE.calculate_solar_elevation (GE.latitude g)
      (GE.calculate_solar_declination (snd item)) 0 = Ok e
    /\ GE.calculate_shadow_length (GE.obstacle_height g) e = Ok L
    /\ d = {| GE.declinacao_solar_graus :=
                degrees (GE.calculate_solar_declination (snd item));
              GE.angulo_horario_graus := degrees 0;
              GE.elevacao_solar_graus := degrees e;
              GE.comprimento_da_sombra := L |}.

(** The loop of GE keeps what it reads. *)
Definition GE_reads_as (g s : GE.globals) : Prop :=
  GE.latitude s = GE.latitude g
  /\ GE.obstacle_height s = GE.obstacle_height g
  /\ GE.seasons s = GE.seasons g.

(** The body of the scaling loop of GE. *)
Definition scaling_step (m : R) (length : pyfloat) : R :=
  match length with
  | Finite x => py_max m x
  | Infinite => m
  end.

(** What a step of CG stores for a date. *)
Definition CG_stored (item : string * (Z * Z)) (v : CG.resultado) : Prop :=
  exists (n : Z) (L : R),
    CG.dia_juliano (fst (snd item)) (snd (snd item)) = Ok n
    /\ (n = 355%Z \/ n = 79%Z \/ n = 172%Z \/ n = 265%Z)
    /\ v = {| CG.declinacao := cooper_degrees n;
              CG.elevacao :=
                CG.elevacao_solar CG.latitude_deg (cooper_degrees n);
              CG.sombra := Finite L |}
    /\ 0 < L <= 1.67.

(** The noon shadow as a function of the angle between latitude and
    declination. *)
Definition noon_shadow (h a : R) : R := h / tan (radians (90 - a)).

(** The entries of [resultados] with a finite shadow, in the order of the
    dict: the label and the length. *)
Definition DS_finitas (resultados : dict DS.resultado) : list (string * R) :=
  flat_map
    (fun kv =>
       match DS.comprimento_sombra (snd kv) with
       | Finite c => [(fst kv, c)]
       | Infinite => []
       end)
    (items resultados).

(** * Properties *)

(** ** The Python fragment *)

Lemma radians_degrees (x : R) : radians (degrees x) = x.
Proof. unfold radians, degrees. field. apply PI_neq0. Qed.

Lemma degrees_radians (x : R) : degrees (radians x) = x.
Proof. unfold radians, degrees. field. apply PI_neq0. Qed.

Lemma radians_0 : radians 0 = 0.
Proof. unfold radians. ring. Qed.

Lemma math_asin_ok (x : R) : -1 <= x <= 1 -> math_asin x = Ok (asin x).
Proof.
  intros [Hlo Hhi]. unfold math_asin.
  destruct (Rlt_dec x (-1)) as [H | _]; [lra |].
  destruct (Rlt_dec 1 x) as [H | _]; [lra | reflexivity].
Qed.

Lemma math_asin_raises (x : R) :
  x < -1 \/ 1 < x -> math_asin x = Raise ValueError.
Proof.
  intros H. unfold math_asin.
  destruct (Rlt_dec x (-1)) as [_ | H1]; [reflexivity |].
  destruct (Rlt_dec 1 x) as [_ | H2]; [reflexivity | lra].
Qed.

Lemma truediv_ok (a b : R) : b <> 0 -> truediv a b = Ok (a / b).
Proof.
  intros H. unfold truediv. destruct (Req_dec_T b 0); [contradiction | reflexivity].
Qed.

Lemma truediv_zero (a : R) : truediv a 0 = Raise ZeroDivisionError.
Proof.
  unfold truediv. destruct (Req_dec_T 0 0) as [_ | H]; [reflexivity | now elim H].
Qed.

Lemma contains_S_W (dir : string) :
  contains ["S"%string; "W"%string] dir = true <->
  dir = "S"%string \/ dir = "W"%string.
Proof.
  unfold contains; simpl. rewrite orb_false_r, orb_true_iff, !String.eqb_eq.
  tauto.
Qed.

(** ** Degrees, minutes, seconds *)

(** C10: the three conversions ([dms_to_decimal] of GE and of CL,
    [graus_para_decimal] of DS) return [-(d + m/60 + s/3600)] when the
    direction is ["S"] or ["W"], and [d + m/60 + s/3600] for every other
    direction. *)
Theorem dms_to_decimal_sign (d m s : R) (dir : string) :
  let x := d + m / 60 + s / 3600 in
  ((dir = "S"%string \/ dir = "W"%string) ->
     GE.dms_to_decimal d m s dir = - x
     /\ CL.dms_to_decimal d m s dir = - x
     /\ DS.graus_para_decimal d m s dir = - x)
  /\ ((dir <> "S"%string /\ dir <> "W"%string) ->
     GE.dms_to_decimal d m s dir = x
     /\ CL.dms_to_decimal d m s dir = x
     /\ DS.graus_para_decimal d m s dir = x).
Proof.
  intros x.
  unfold GE.dms_to_decimal, CL.dms_to_decimal, DS.graus_para_decimal.
  fold x.
  destruct (contains ["S"%string; "W"%string] dir) eqn:E.
  - apply contains_S_W in E. split.
    + intros _. repeat split; ring.
    + intros [HS HW]. destruct E; contradiction.
  - split.
    + intros H. apply contains_S_W in H. congruence.
    + intros _. repeat split; reflexivity.
Qed.

(** ** The guard of the shadow length *)

Lemma CL_shadow_length_infinite (self : CL.SolarShadowAnalyzer) (e : R) :
  e <= 0 -> CL.shadow_length self e = Ok Infinite.
Proof.
  intros H. unfold CL.shadow_length.
  destruct (Rle_dec e 0); [reflexivity | contradiction].
Qed.

Lemma DS_comprimento_sombra_infinite (h e : R) :
  e <= 0 -> DS.calcular_comprimento_sombra h e = Ok Infinite.
Proof.
  intros H. unfold DS.calcular_comprimento_sombra.
  destruct (Rle_dec e 0); [reflexivity | contradiction].
Qed.

Lemma GE_shadow_length_infinite (h e : R) :
  e <= 0 -> GE.calculate_shadow_length h e = Ok Infinite.
Proof.
  intros H. unfold GE.calculate_shadow_length.
  destruct (Rle_dec e 0); [reflexivity | contradiction].
Qed.

(** X1: the three guarded variants return the sentinel at every
    elevation that is not positive. *)
Theorem guarded_shadow_length_infinite
  (self : CL.SolarShadowAnalyzer) (h e : R) :
  e <= 0 ->
  CL.shadow_length self e = Ok Infinite
  /\ DS.calcular_comprimento_sombra h e = Ok Infinite
  /\ GE.calculate_shadow_length h e = Ok Infinite.
Proof.
  intros H. repeat split.
  - now apply CL_shadow_length_infinite.
  - now apply DS_comprimento_sombra_infinite.
  - now apply GE_shadow_length_infinite.
Qed.

Lemma guarded_shadow_length_infinite_witness :
  CL.shadow_length (CL.init (-21.74) (-48.1) 1.65) (-5) = Ok Infinite
  /\ DS.calcular_comprimento_sombra 1.65 (-5) = Ok Infinite
  /\ GE.calculate_shadow_length 1.65 (-5) = Ok Infinite.
Proof.
  apply (guarded_shadow_length_infinite (CL.init (-21.74) (-48.1) 1.65)).
  lra.
Defined.

Lemma tan_radians_0 : tan (radians 0) = 0.
Proof. rewrite radians_0. apply tan_0. Qed.

Lemma tan_radians_minus_45 : tan (radians (-45)) = -1.
Proof.
  replace (radians (-45)) with (- (PI / 4)) by (unfold radians; field).
  rewrite tan_neg, tan_PI4. reflexivity.
Qed.

(** C1: [comprimento_sombra] of CG has no guard.  At elevation 0 the
    division raises [ZeroDivisionError]; at elevation -45 it returns the
    computed quotient, a negative length, where the other three variants
    return the sentinel. *)
Theorem CG_comprimento_sombra_unguarded :
  CG.comprimento_sombra 1.65 0 = Raise ZeroDivisionError
  /\ CG.comprimento_sombra 1.65 (-45) = Ok (Finite (-1.65))
  /\ DS.calcular_comprimento_sombra 1.65 0 = Ok Infinite
  /\ DS.calcular_comprimento_sombra 1.65 (-45) = Ok Infinite.
Proof.
  unfold CG.comprimento_sombra. rewrite tan_radians_0, tan_radians_minus_45.
  rewrite truediv_zero. rewrite truediv_ok by lra.
  replace (1.65 / -1) with (-1.65) by lra.
  repeat split.
  - apply DS_comprimento_sombra_infinite. lra.
  - apply DS_comprimento_sombra_infinite. lra.
Qed.

(** ** The elevation formula over the reals *)

Lemma sin_alpha_bound (a b c : R) : -1 <= sin_alpha a b c <= 1.
Proof.
  unfold sin_alpha.
  pose proof (sin2_cos2 a) as Ha. pose proof (sin2_cos2 b) as Hb.
  pose proof (COS_bound c) as Hc. unfold Rsqr in Ha, Hb.
  set (x := sin a) in *. set (y := cos a) in *.
  set (u := sin b) in *. set (w := cos b) in *. set (k := cos c) in *.
  clearbody x y u w k.
  assert (Hk : k * k <= 1) by nra.
  pose proof (Rle_0_sqr w) as Hw. unfold Rsqr in Hw.
  assert (Hv : (w * k) * (w * k) <= w * w).
  { replace ((w * k) * (w * k)) with ((w * w) * (k * k)) by ring.
    generalize dependent (w * w). generalize dependent (k * k).
    intros q Hq p _ Hp. nra. }
  assert (Hsq : (x * u + y * (w * k)) * (x * u + y * (w * k)) <= 1).
  { generalize dependent (w * k). intros v Hv.
    pose proof (Rle_0_sqr (x * v - y * u)) as H0. unfold Rsqr in H0.
    assert (H1 : (x * u + y * v) * (x * u + y * v)
                 + (x * v - y * u) * (x * v - y * u)
                 = (x * x + y * y) * (u * u + v * v)) by ring.
    rewrite Ha in H1. nra. }
  replace (x * u + y * w * k) with (x * u + y * (w * k)) by ring.
  generalize dependent (x * u + y * (w * k)). intros t Ht.
  split; nra.
Qed.

Lemma sin_alpha_noon (a b : R) : sin_alpha a b 0 = cos (a - b).
Proof. unfold sin_alpha. rewrite cos_0, cos_minus. ring. Qed.

Lemma cos_Rabs (x : R) : cos (Rabs x) = cos x.
Proof.
  unfold Rabs. destruct (Rcase_abs x); [apply cos_neg | reflexivity].
Qed.

Lemma asin_cos (x : R) : Rabs x <= PI -> asin (cos x) = PI / 2 - Rabs x.
Proof.
  intros H. rewrite <- cos_Rabs, <- sin_shift.
  apply asin_sin. pose proof (Rabs_pos x). split; lra.
Qed.

Lemma asin_pos (x : R) : 0 < x <= 1 -> 0 < asin x.
Proof.
  intros [H0 H1].
  destruct (Rlt_le_dec 0 (asin x)) as [H | H]; [exact H | exfalso].
  assert (Hb : - (PI / 2) <= asin x <= PI / 2) by (apply asin_bound).
  assert (Hs : sin (asin x) = x) by (apply sin_asin; lra).
  destruct (Req_dec (asin x) 0) as [E | E].
  - rewrite E, sin_0 in Hs. lra.
  - assert (sin (asin x) < 0).
    { apply sin_lt_0_var; pose proof PI_RGT_0; lra. }
    lra.
Qed.

Lemma asin_nonpos (x : R) : -1 <= x <= 0 -> asin x <= 0.
Proof.
  intros [H0 H1].
  destruct (Rle_lt_dec (asin x) 0) as [H | H]; [exact H | exfalso].
  assert (Hb : - (PI / 2) <= asin x <= PI / 2) by (apply asin_bound).
  assert (Hs : sin (asin x) = x) by (apply sin_asin; lra).
  assert (0 < sin (asin x)).
  { apply sin_gt_0; pose proof PI_RGT_0; lra. }
  lra.
Qed.

Lemma radians_minus (x y : R) : radians x - radians y = radians (x - y).
Proof. unfold radians. ring. Qed.

Lemma Rabs_radians (x : R) : Rabs (radians x) = radians (Rabs x).
Proof.
  unfold radians. rewrite Rabs_mult. f_equal.
  apply Rabs_pos_eq. pose proof PI_RGT_0. apply Rlt_le, Rdiv_lt_0_compat; lra.
Qed.

Lemma radians_le (x y : R) : x <= y -> radians x <= radians y.
Proof.
  intros H. unfold radians. apply Rmult_le_compat_r; [| exact H].
  pose proof PI_RGT_0. apply Rlt_le, Rdiv_lt_0_compat; lra.
Qed.

Lemma radians_lt (x y : R) : x < y -> radians x < radians y.
Proof.
  intros H. unfold radians. apply Rmult_lt_compat_r; [| exact H].
  pose proof PI_RGT_0. apply Rdiv_lt_0_compat; lra.
Qed.

Lemma radians_180 : radians 180 = PI.
Proof. unfold radians. field. Qed.

Lemma radians_90 : radians 90 = PI / 2.
Proof. unfold radians. field. Qed.

Lemma degrees_PI2 : degrees (PI / 2) = 90.
Proof. unfold degrees. field. apply PI_neq0. Qed.

(** CL and DS pass the sum to [math.asin] as it is. *)
Lemma CL_solar_elevation_unfold (self : CL.SolarShadowAnalyzer) (dec ha : R) :
  CL.solar_elevation self dec ha =
  (a <- math_asin (sin_alpha (radians (CL.latitude self)) (radians dec)
                     (radians ha)) ;;
   Ok (degrees a)).
Proof. reflexivity. Qed.

Lemma DS_elevacao_solar_unfold (lat dec ha : R) :
  DS.calcular_elevacao_solar lat dec ha =
  (a <- math_asin (sin_alpha (radians lat) (radians dec) (radians ha)) ;;
   Ok (degrees a)).
Proof. reflexivity. Qed.

Lemma CL_solar_elevation_value (self : CL.SolarShadowAnalyzer) (dec ha : R) :
  CL.solar_elevation self dec ha =
  Ok (degrees (asin (sin_alpha (radians (CL.latitude self)) (radians dec)
                       (radians ha)))).
Proof.
  rewrite CL_solar_elevation_unfold, math_asin_ok by apply sin_alpha_bound.
  reflexivity.
Qed.

Lemma DS_elevacao_solar_value (lat dec ha : R) :
  DS.calcular_elevacao_solar lat dec ha =
  Ok (degrees (asin (sin_alpha (radians lat) (radians dec) (radians ha)))).
Proof.
  rewrite DS_elevacao_solar_unfold, math_asin_ok by apply sin_alpha_bound.
  reflexivity.
Qed.

(** At noon the asin formula is [90 - |lat - dec|] as long as the two
    angles are at most 180 degrees apart. *)
Lemma noon_elevation_closed_form (lat dec : R) :
  Rabs (lat - dec) <= 180 ->
  degrees (asin (sin_alpha (radians lat) (radians dec) (radians 0))) =
  90 - Rabs (lat - dec).
Proof.
  intros H. rewrite radians_0, sin_alpha_noon, radians_minus.
  rewrite asin_cos.
  - rewrite Rabs_radians. unfold degrees, radians. field. apply PI_neq0.
  - rewrite Rabs_radians, <- radians_180. now apply radians_le.
Qed.

(** C9: when latitude and declination are at most 90 degrees apart, the
    closed form [90 - |lat - dec|] of CG is the value the asin formula of
    CL and of DS returns at hour angle 0. *)
Theorem CG_closed_form_is_noon_asin (self : CL.SolarShadowAnalyzer)
  (lat dec : R) :
  CL.latitude self = lat ->
  Rabs (lat - dec) <= 90 ->
  CL.solar_elevation self dec 0 = Ok (CG.elevacao_solar lat dec)
  /\ DS.calcular_elevacao_solar lat dec 0 = Ok (CG.elevacao_solar lat dec).
Proof.
  intros Hlat H. unfold CG.elevacao_solar.
  rewrite CL_solar_elevation_value, DS_elevacao_solar_value, Hlat.
  rewrite noon_elevation_closed_form by lra.
  split; reflexivity.
Qed.

Lemma CG_closed_form_is_noon_asin_witness :
  CL.solar_elevation (CL.init (-21.74) (-48.1) 1.65) 23.45 0
    = Ok (CG.elevacao_solar (-21.74) 23.45)
  /\ DS.calcular_elevacao_solar (-21.74) 23.45 0
    = Ok (CG.elevacao_solar (-21.74) 23.45).
Proof.
  apply (CG_closed_form_is_noon_asin (CL.init (-21.74) (-48.1) 1.65)).
  - reflexivity.
  - unfold Rabs. destruct (Rcase_abs (-21.74 - 23.45)); lra.
Defined.

(** The clamp of GE: [max(-1.0, min(1.0, x))]. *)
Lemma clamp_bound (x : R) : -1 <= py_max (-1) (py_min 1 x) <= 1.
Proof.
  unfold py_max, py_min.
  destruct (Rlt_dec x 1); destruct (Rlt_dec (-1) _); lra.
Qed.

Lemma clamp_id (x : R) : -1 <= x <= 1 -> py_max (-1) (py_min 1 x) = x.
Proof.
  intros H. unfold py_max, py_min.
  destruct (Rlt_dec x 1); destruct (Rlt_dec (-1) _); lra.
Qed.

Lemma GE_solar_elevation_unfold (lat dec ha : R) :
  GE.calculate_solar_elevation lat dec ha =
  (a <- math_asin (py_max (-1) (py_min 1 (sin_alpha (radians lat) dec ha))) ;;
   Ok (if Rlt_dec 0 a then a else 0)).
Proof. reflexivity. Qed.

Lemma GE_solar_elevation_value (lat dec ha : R) :
  GE.calculate_solar_elevation lat dec ha =
  Ok (let a := asin (sin_alpha (radians lat) dec ha) in
      if Rlt_dec 0 a then a else 0).
Proof.
  rewrite GE_solar_elevation_unfold, clamp_id by apply sin_alpha_bound.
  rewrite math_asin_ok by apply sin_alpha_bound. reflexivity.
Qed.

(** The clamp of GE makes its inverse sine total whatever the sum is;
    CL and DS raise exactly when the sum leaves [[-1, 1]], which exact
    real arithmetic never lets happen. *)
Lemma GE_clamped_asin_never_raises (x : R) :
  math_asin (py_max (-1) (py_min 1 x))
  = Ok (asin (py_max (-1) (py_min 1 x))).
Proof. apply math_asin_ok, clamp_bound. Qed.

Lemma CL_solar_elevation_raises_iff (self : CL.SolarShadowAnalyzer)
  (dec ha : R) :
  CL.solar_elevation self dec ha = Raise ValueError <->
  (sin_alpha (radians (CL.latitude self)) (radians dec) (radians ha) < -1
   \/ 1 < sin_alpha (radians (CL.latitude self)) (radians dec) (radians ha)).
Proof.
  rewrite CL_solar_elevation_unfold. unfold math_asin.
  destruct (Rlt_dec _ (-1)) as [H1 | H1]; [simpl; tauto |].
  destruct (Rlt_dec 1 _) as [H2 | H2]; [simpl; tauto |].
  simpl. split; [discriminate | tauto].
Qed.

(** When [math.asin] returns, its argument was in [[-1, 1]] and the value
    is the inverse sine of it. *)
Lemma math_asin_returned (x a : R) :
  math_asin x = Ok a -> -1 <= x <= 1 /\ a = asin x.
Proof.
  unfold math_asin.
  destruct (Rlt_dec x (-1)) as [H1 | H1]; [discriminate |].
  destruct (Rlt_dec 1 x) as [H2 | H2]; [discriminate |].
  intros E. split; [lra | congruence].
Qed.

Lemma CL_solar_elevation_returned (self : CL.SolarShadowAnalyzer)
  (dec ha e : R) :
  CL.solar_elevation self dec ha = Ok e ->
  -1 <= sin_alpha (radians (CL.latitude self)) (radians dec) (radians ha) <= 1
  /\ e = degrees (asin (sin_alpha (radians (CL.latitude self)) (radians dec)
                          (radians ha))).
Proof.
  rewrite CL_solar_elevation_unfold.
  destruct (math_asin _) as [a | x] eqn:E; cbn [bind]; [| discriminate].
  intros E'. destruct (math_asin_returned _ _ E) as [Hb ->].
  split; [exact Hb | congruence].
Qed.

Lemma DS_elevacao_solar_returned (lat dec ha e : R) :
  DS.calcular_elevacao_solar lat dec ha = Ok e ->
  -1 <= sin_alpha (radians lat) (radians dec) (radians ha) <= 1
  /\ e = degrees (asin (sin_alpha (radians lat) (radians dec) (radians ha))).
Proof.
  rewrite DS_elevacao_solar_unfold.
  destruct (math_asin _) as [a | x] eqn:E; cbn [bind]; [| discriminate].
  intros E'. destruct (math_asin_returned _ _ E) as [Hb ->].
  split; [exact Hb | congruence].
Qed.

(** X2: over the reals the sum never leaves [[-1, 1]], so none of the
    three elevation functions raises. *)
Lemma elevation_total_over_reals (self : CL.SolarShadowAnalyzer)
  (lat dec ha : R) :
  (exists a, CL.solar_elevation self dec ha = Ok a)
  /\ (exists a, DS.calcular_elevacao_solar lat dec ha = Ok a)
  /\ (exists a, GE.calculate_solar_elevation lat dec ha = Ok a).
Proof.
  split; [| split]; eexists.
  - apply CL_solar_elevation_value.
  - apply DS_elevacao_solar_value.
  - rewrite GE_solar_elevation_unfold, GE_clamped_asin_never_raises.
    reflexivity.
Qed.

Lemma CG_elevacao_solar_equation (lat dec : R) :
  Rabs (lat - dec) <= 180 ->
  let alpha := CG.elevacao_solar lat dec in
  sin (radians alpha) = sin_alpha (radians lat) (radians dec) 0
  /\ alpha = degrees (asin (sin (radians alpha))).
Proof.
  intros H alpha. subst alpha. unfold CG.elevacao_solar.
  assert (Hr : radians (90 - Rabs (lat - dec))
               = PI / 2 - Rabs (radians lat - radians dec)).
  { rewrite radians_minus, Rabs_radians. unfold radians. field. }
  assert (Hb : Rabs (radians lat - radians dec) <= PI).
  { rewrite radians_minus, Rabs_radians, <- radians_180.
    now apply radians_le. }
  rewrite Hr. split.
  - rewrite sin_shift, cos_Rabs, sin_alpha_noon. reflexivity.
  - rewrite asin_sin.
    + rewrite <- Hr. symmetry. apply degrees_radians.
    + pose proof (Rabs_pos (radians lat - radians dec)). split; lra.
Qed.

(** What CG passes to [elevacao_solar]: its fixed latitude and a Cooper
    declination. *)
Lemma CG_received_inputs (dia mes : Z) (decl : R) :
  CG.declinacao_solar dia mes = Ok decl ->
  Rabs (CG.latitude_deg - decl) <= 180.
Proof.
  unfold CG.declinacao_solar.
  destruct (CG.dia_juliano dia mes) as [n | e]; cbn [bind]; [| discriminate].
  fold (cooper_degrees n). intros E.
  assert (Hd : decl = cooper_degrees n) by congruence.
  unfold cooper_degrees in Hd.
  pose proof (SIN_bound (radians (360 / 365 * IZR (284 + n)))) as Hs.
  unfold CG.latitude_deg, Rabs.
  destruct (Rcase_abs _); lra.
Qed.

(** C4: the elevation each variant returns.  Whenever CL or DS return a
    value, it is the angle [alpha] in degrees with [sin alpha = sin lat sin
    dec + cos lat cos dec cos ha] and [alpha = asin (sin alpha)]; that they
    return is not part of the statement, since they pass the sum to the
    inverse sine unclamped and raise when rounding takes it above 1 (C2).
    The closed form of CG satisfies the same equation at hour angle 0 when
    latitude and declination are at most 180 degrees apart, which holds
    for the inputs it receives; GE takes declination and hour angle in
    radians, clamps, and returns radians: the same angle while the sine is
    positive, and 0 as soon as the sun is at or below the horizon. *)
Theorem elevation_equation (self : CL.SolarShadowAnalyzer) (lat dec ha : R) :
  (forall alpha,
      CL.solar_elevation self dec ha = Ok alpha ->
      sin (radians alpha)
      = sin (radians (CL.latitude self)) * sin (radians dec)
        + cos (radians (CL.latitude self)) * cos (radians dec)
          * cos (radians ha)
      /\ alpha = degrees (asin (sin (radians alpha))))
  /\ (forall alpha,
      DS.calcular_elevacao_solar lat dec ha = Ok alpha ->
      sin (radians alpha)
      = sin (radians lat) * sin (radians dec)
        + cos (radians lat) * cos (radians dec) * cos (radians ha)
      /\ alpha = degrees (asin (sin (radians alpha))))
  /\ (Rabs (lat - dec) <= 180 ->
      sin (radians (CG.elevacao_solar lat dec))
      = sin (radians lat) * sin (radians dec)
        + cos (radians lat) * cos (radians dec) * cos 0
      /\ CG.elevacao_solar lat dec
         = degrees (asin (sin (radians (CG.elevacao_solar lat dec)))))
  /\ (forall (dia mes : Z) (decl : R),
      CG.declinacao_solar dia mes = Ok decl ->
      sin (radians (CG.elevacao_solar CG.latitude_deg decl))
      = sin (radians CG.latitude_deg) * sin (radians decl)
        + cos (radians CG.latitude_deg) * cos (radians decl) * cos 0
      /\ CG.elevacao_solar CG.latitude_deg decl
         = degrees
             (asin (sin (radians (CG.elevacao_solar CG.latitude_deg decl)))))
  /\ (exists alpha,
      GE.calculate_solar_elevation lat dec ha = Ok alpha
      /\ (0 < sin (radians lat) * sin dec + cos (radians lat) * cos dec * cos ha ->
          sin alpha
          = sin (radians lat) * sin dec + cos (radians lat) * cos dec * cos ha
          /\ alpha = asin (sin alpha))
      /\ (sin (radians lat) * sin dec + cos (radians lat) * cos dec * cos ha <= 0 ->
          alpha = 0)).
Proof.
  split; [| split; [| split; [| split]]].
  - intros alpha E.
    destruct (CL_solar_elevation_returned _ _ _ _ E) as [Hb ->].
    rewrite radians_degrees, sin_asin by exact Hb. split; reflexivity.
  - intros alpha E.
    destruct (DS_elevacao_solar_returned _ _ _ _ E) as [Hb ->].
    rewrite radians_degrees, sin_asin by exact Hb. split; reflexivity.
  - intros H. apply (CG_elevacao_solar_equation lat dec H).
  - intros dia mes decl Hd.
    apply (CG_elevacao_solar_equation _ _ (CG_received_inputs dia mes decl Hd)).
  - eexists. split; [apply GE_solar_elevation_value |].
    fold (sin_alpha (radians lat) dec ha).
    pose proof (sin_alpha_bound (radians lat) dec ha) as Hb.
    cbv zeta. split.
    + intros Hpos.
      destruct (Rlt_dec 0 (asin (sin_alpha (radians lat) dec ha))) as [_ | Hn].
      * rewrite sin_asin by exact Hb. split; reflexivity.
      * elim Hn. apply asin_pos. lra.
    + intros Hneg.
      destruct (Rlt_dec 0 (asin (sin_alpha (radians lat) dec ha))) as [Hp | _];
        [| reflexivity].
      assert (asin (sin_alpha (radians lat) dec ha) <= 0)
        by (apply asin_nonpos; lra).
      lra.
Qed.

Lemma elevation_equation_witness :
  CL.solar_elevation (CL.init (-21.74) (-48.1) 1.65) 23.45 0 = Ok 44.81
  /\ (sin (radians 44.81)
      = sin (radians (-21.74)) * sin (radians 23.45)
        + cos (radians (-21.74)) * cos (radians 23.45) * cos (radians 0)
      /\ 44.81 = degrees (asin (sin (radians 44.81))))
  /\ (sin (radians (CG.elevacao_solar (-21.74) 23.45))
      = sin (radians (-21.74)) * sin (radians 23.45)
        + cos (radians (-21.74)) * cos (radians 23.45) * cos 0
      /\ CG.elevacao_solar (-21.74) 23.45
         = degrees (asin (sin (radians (CG.elevacao_solar (-21.74) 23.45))))).
Proof.
  assert (Habs : Rabs (-21.74 - 23.45) = 45.19).
  { unfold Rabs. destruct (Rcase_abs (-21.74 - 23.45)); lra. }
  assert (E : CL.solar_elevation (CL.init (-21.74) (-48.1) 1.65) 23.45 0
              = Ok 44.81).
  { rewrite CL_solar_elevation_value. f_equal.
    change (CL.latitude (CL.init (-21.74) (-48.1) 1.65)) with (-21.74).
    rewrite noon_elevation_closed_form by (rewrite Habs; lra).
    rewrite Habs. lra. }
  split; [exact E |]. split.
  - exact (proj1 (elevation_equation (CL.init (-21.74) (-48.1) 1.65)
                    (-21.74) 23.45 0) 44.81 E).
  - apply (elevation_equation (CL.init (-21.74) (-48.1) 1.65) (-21.74) 23.45 0).
    rewrite Habs. lra.
Defined.

Lemma sin_1_pos : 0 < sin 1.
Proof. apply sin_gt_0; pose proof PI2_1; lra. Qed.

(** C4, as stated, fails on GE: with the sun below the horizon (latitude
    -90, declination 1 rad, hour angle 0) the function returns 0, whose
    sine is not the value of the formula. *)
Lemma GE_elevation_below_horizon_counterexample :
  GE.calculate_solar_elevation (-90) 1 0 = Ok 0
  /\ sin 0 <> sin (radians (-90)) * sin 1 + cos (radians (-90)) * cos 1 * cos 0
  /\ sin (radians 0)
     <> sin (radians (-90)) * sin 1 + cos (radians (-90)) * cos 1 * cos 0.
Proof.
  assert (Hr : radians (-90) = - (PI / 2)) by (unfold radians; field).
  assert (Hs : sin_alpha (radians (-90)) 1 0 = - sin 1).
  { unfold sin_alpha. rewrite Hr, sin_neg, cos_neg, sin_PI2, cos_PI2. ring. }
  pose proof sin_1_pos as H1.
  split; [| split].
  - rewrite GE_solar_elevation_value. cbv zeta.
    destruct (Rlt_dec 0 (asin (sin_alpha (radians (-90)) 1 0))) as [Hp | _];
      [| reflexivity].
    assert (asin (sin_alpha (radians (-90)) 1 0) <= 0).
    { apply asin_nonpos. rewrite Hs. pose proof (SIN_bound 1). lra. }
    lra.
  - fold (sin_alpha (radians (-90)) 1 0). rewrite Hs, sin_0. lra.
  - fold (sin_alpha (radians (-90)) 1 0). rewrite Hs, radians_0, sin_0. lra.
Qed.

(** ** Numeric bounds *)

Lemma PI_bounds : 3.1415 < PI < 3.1416.
Proof.
  pose proof (PI_2_3_7_ineq 3) as H.
  unfold sum_f_R0, tg_alt, PI_2_3_7_tg, Ratan_seq in H.
  simpl in H. lra.
Qed.

Lemma sin_lower (x : R) : 0 <= x <= PI -> x - x * x * x / 6 <= sin x.
Proof.
  intros [H0 H1]. destruct (sin_bound x 0 H0 H1) as [H _].
  unfold sin_approx, sin_term, sum_f_R0 in H. simpl in H. lra.
Qed.

Lemma cos_lower (x : R) : - PI / 2 <= x <= PI / 2 -> 1 - x * x / 2 <= cos x.
Proof.
  intros [H0 H1]. destruct (cos_bound x 0 H0 H1) as [H _].
  unfold cos_approx, cos_term, sum_f_R0 in H. simpl in H. lra.
Qed.

Lemma sin_le_x (x : R) : 0 <= x -> sin x <= x.
Proof.
  intros [H | <-]; [apply Rlt_le, sin_lt_x; exact H | rewrite sin_0; lra].
Qed.

Lemma cos_small_pos (x : R) : 0 <= x <= 1 -> 1 / 2 <= 1 - x * x / 2 <= cos x.
Proof.
  intros H. pose proof PI_bounds. split; [nra |].
  apply cos_lower. lra.
Qed.

Lemma tan_upper (x : R) : 0 <= x <= 1 -> tan x <= x / (1 - x * x / 2).
Proof.
  intros H. destruct (cos_small_pos x H) as [Hq Hc].
  pose proof (sin_le_x x (proj1 H)) as Hs.
  assert (Hsin : 0 <= sin x).
  { apply sin_ge_0; pose proof PI_bounds; lra. }
  unfold tan.
  apply Rle_trans with (sin x / (1 - x * x / 2)).
  - unfold Rdiv. apply Rmult_le_compat_l; [exact Hsin |].
    apply Rinv_le_contravar; lra.
  - unfold Rdiv. apply Rmult_le_compat_r; [| exact Hs].
    apply Rlt_le, Rinv_0_lt_compat. lra.
Qed.

Lemma tan_lower (x : R) : 0 <= x <= 1 -> x - x * x * x / 6 <= tan x.
Proof.
  intros H. destruct (cos_small_pos x H) as [Hq Hc].
  pose proof (COS_bound x) as [_ Hc1].
  assert (Hsin : 0 <= sin x).
  { apply sin_ge_0; pose proof PI_bounds; lra. }
  apply Rle_trans with (sin x).
  - apply sin_lower. pose proof PI_bounds. lra.
  - unfold tan. rewrite <- (Rmult_1_r (sin x)) at 1. unfold Rdiv.
    apply Rmult_le_compat_l; [exact Hsin |].
    rewrite <- Rinv_1. apply Rinv_le_contravar; lra.
Qed.

(** The tangent just below 45 degrees and just below 90 degrees. *)
Lemma tan_PI4_minus (e : R) :
  0 <= e <= 1 / 2 -> tan (PI / 4 - e) = (1 - tan e) / (1 + tan e).
Proof.
  intros H. pose proof PI_bounds as HPI.
  assert (Ht : 0 <= tan e).
  { destruct (proj1 H) as [Hp | <-]; [| rewrite tan_0; lra].
    apply Rlt_le, tan_gt_0; lra. }
  rewrite tan_minus.
  - rewrite tan_PI4. f_equal. ring.
  - apply Rgt_not_eq, cos_gt_0; lra.
  - apply Rgt_not_eq, cos_gt_0; lra.
  - apply Rgt_not_eq, cos_gt_0; lra.
  - rewrite tan_PI4. lra.
Qed.

Lemma tan_PI2_minus (e : R) : 0 < e <= 1 -> tan (PI / 2 - e) = / tan e.
Proof.
  intros H. pose proof PI_bounds as HPI.
  unfold tan. rewrite sin_shift, cos_shift.
  assert (sin e <> 0) by (apply Rgt_not_eq, sin_gt_0; lra).
  assert (cos e <> 0) by (apply Rgt_not_eq, cos_gt_0; lra).
  field. split; assumption.
Qed.

(** ** The declination *)

Lemma CL_solar_declination_cooper (self : CL.SolarShadowAnalyzer) (n : Z) :
  CL.solar_declination self n = cooper_degrees n.
Proof.
  unfold CL.solar_declination, cooper_degrees.
  rewrite mult_IZR. do 3 f_equal. field.
Qed.

Lemma DS_declinacao_solar_cooper (n : Z) :
  DS.calcular_declinacao_solar n = cooper_degrees n.
Proof.
  unfold DS.calcular_declinacao_solar, cooper_degrees.
  rewrite mult_IZR. do 3 f_equal. field.
Qed.

Lemma cooper_degrees_bound (n : Z) : -23.45 <= cooper_degrees n <= 23.45.
Proof.
  unfold cooper_degrees.
  pose proof (SIN_bound (radians (360 / 365 * IZR (284 + n)))). lra.
Qed.

Lemma cooper_degrees_172 : cooper_degrees 172 = 23.45 * cos (PI / 730).
Proof.
  unfold cooper_degrees. f_equal.
  replace (radians (360 / 365 * IZR (284 + 172)))
    with (PI / 2 - PI / 730 + 2 * INR 1 * PI)
    by (unfold radians; simpl; field).
  rewrite sin_period, sin_shift. reflexivity.
Qed.

Lemma cooper_degrees_355 : cooper_degrees 355 = - (23.45 * cos (PI / 730)).
Proof.
  unfold cooper_degrees.
  replace (radians (360 / 365 * IZR (284 + 355)))
    with (PI / 2 + PI / 730 + PI + 2 * INR 1 * PI)
    by (unfold radians; simpl; field).
  rewrite sin_period, neg_sin, sin_plus, sin_PI2, cos_PI2. ring.
Qed.

Lemma cos_PI_730_bounds : 0.9999 < cos (PI / 730) <= 1.
Proof.
  pose proof PI_bounds as HPI. split; [| apply COS_bound].
  apply Rlt_le_trans with (1 - (PI / 730) * (PI / 730) / 2).
  - nra.
  - apply cos_lower. lra.
Qed.

Lemma cooper_degrees_172_bounds : 23.447 < cooper_degrees 172 <= 23.45.
Proof. rewrite cooper_degrees_172. pose proof cos_PI_730_bounds. lra. Qed.

Lemma cooper_degrees_355_bounds : -23.45 <= cooper_degrees 355 < -23.447.
Proof. rewrite cooper_degrees_355. pose proof cos_PI_730_bounds. lra. Qed.

Lemma GE_declination_bound (n : Z) :
  -0.409 <= GE.calculate_solar_declination n <= 0.409.
Proof.
  unfold GE.calculate_solar_declination.
  pose proof (SIN_bound (2 * PI / 365 * IZR n - 1.39)). lra.
Qed.

Lemma GE_declination_172_pos : 0 < GE.calculate_solar_declination 172.
Proof.
  unfold GE.calculate_solar_declination. pose proof PI_bounds as HPI.
  assert (0 < sin (2 * PI / 365 * 172 - 1.39)).
  { apply sin_gt_0; lra. }
  lra.
Qed.

(** C3: the declination each variant returns, for every day of the year
    [n] (in particular for [1 <= n <= 366]).  CL and DS return the Cooper
    value [23.45 sin (radians (360/365 (284 + n)))], in degrees, and so does
    CG for the day of 2025 it derives from a date; GE returns
    [0.409 sin (2 pi/365 n - 1.39)] as it is, a value in radians of
    magnitude at most 0.409. *)
Theorem declination_formulas (self : CL.SolarShadowAnalyzer) (n : Z) :
  CL.solar_declination self n
    = 23.45 * sin (radians (360 / 365 * IZR (284 + n)))
  /\ DS.calcular_declinacao_solar n
    = 23.45 * sin (radians (360 / 365 * IZR (284 + n)))
  /\ (forall dia mes : Z,
        CG.dia_juliano dia mes = Ok n ->
        CG.declinacao_solar dia mes
        = Ok (23.45 * sin (radians (360 / 365 * IZR (284 + n)))))
  /\ GE.calculate_solar_declination n
    = 0.409 * sin (2 * PI / 365 * IZR n - 1.39)
  /\ -0.409 <= GE.calculate_solar_declination n <= 0.409.
Proof.
  split; [apply CL_solar_declination_cooper |].
  split; [apply DS_declinacao_solar_cooper |].
  split.
  - intros dia mes H. unfold CG.declinacao_solar. rewrite H. reflexivity.
  - split; [reflexivity | apply GE_declination_bound].
Qed.

(** C3, as stated, fails on GE: on day 172 its value is neither the Cooper
    value in degrees nor the radian-form value expressed in degrees. *)
Lemma GE_declination_not_degrees_counterexample :
  GE.calculate_solar_declination 172
    <> 23.45 * sin (radians (360 / 365 * IZR (284 + 172)))
  /\ GE.calculate_solar_declination 172
    <> degrees (0.409 * sin (2 * PI / 365 * IZR 172 - 1.39)).
Proof.
  pose proof (GE_declination_bound 172) as Hb.
  pose proof GE_declination_172_pos as Hp.
  pose proof cooper_degrees_172_bounds as Hc. unfold cooper_degrees in Hc.
  split; [lra |].
  fold (GE.calculate_solar_declination 172).
  unfold degrees. pose proof PI_bounds as HPI.
  assert (1 < 180 / PI).
  { apply Rmult_lt_reg_r with PI; [lra |]. unfold Rdiv.
    rewrite Rmult_assoc, Rinv_l by lra. lra. }
  nra.
Qed.

(** ** The shadow length above the horizon *)

Lemma tan_radians_pos (e : R) : 0 < e < 90 -> 0 < tan (radians e).
Proof.
  intros [H0 H1]. apply tan_gt_0.
  - rewrite <- radians_0. now apply radians_lt.
  - rewrite <- radians_90. now apply radians_lt.
Qed.

Lemma CL_shadow_length_finite (self : CL.SolarShadowAnalyzer) (e : R) :
  0 < e < 90 ->
  CL.shadow_length self e
  = Ok (Finite (CL.obstacle_height self / tan (radians e))).
Proof.
  intros H. unfold CL.shadow_length.
  destruct (Rle_dec e 0) as [Hle | _]; [lra |].
  rewrite truediv_ok; [reflexivity |].
  apply Rgt_not_eq, tan_radians_pos, H.
Qed.

Lemma DS_comprimento_sombra_finite (h e : R) :
  0 < e < 90 ->
  DS.calcular_comprimento_sombra h e = Ok (Finite (h / tan (radians e))).
Proof.
  intros H. unfold DS.calcular_comprimento_sombra.
  destruct (Rle_dec e 0) as [Hle | _]; [lra |].
  rewrite truediv_ok; [reflexivity |].
  apply Rgt_not_eq, tan_radians_pos, H.
Qed.

Lemma tan_radians_near_45 (e : R) :
  44.8 <= e <= 45 -> 0.99 <= tan (radians e) <= 1.
Proof.
  intros He. pose proof PI_bounds as HPI.
  set (eps := radians (45 - e)).
  assert (Heps : 0 <= eps <= 0.0035).
  { unfold eps, radians. split; nra. }
  replace (radians e) with (PI / 4 - eps) by (unfold eps, radians; field).
  rewrite tan_PI4_minus by lra.
  assert (Ht0 : 0 <= tan eps).
  { apply Rle_trans with (eps - eps * eps * eps / 6); [nra |].
    apply tan_lower. lra. }
  assert (Ht1 : tan eps <= 0.004).
  { apply Rle_trans with (eps / (1 - eps * eps / 2)); [apply tan_upper; lra |].
    apply Rmult_le_reg_r with (1 - eps * eps / 2); [nra |].
    unfold Rdiv at 1. rewrite Rmult_assoc, Rinv_l by nra. nra. }
  clearbody eps. generalize dependent (tan eps). intros t Ht0 Ht1.
  split.
  - apply Rmult_le_reg_r with (1 + t); [lra |].
    unfold Rdiv. rewrite Rmult_assoc, Rinv_l by lra. lra.
  - apply Rmult_le_reg_r with (1 + t); [lra |].
    unfold Rdiv. rewrite Rmult_assoc, Rinv_l by lra. lra.
Qed.

Lemma tan_radians_near_90 (e : R) :
  88.28 <= e <= 88.3 -> 0.029 <= / tan (radians e) <= 0.031.
Proof.
  intros He. pose proof PI_bounds as HPI.
  set (eps := radians (90 - e)).
  assert (Heps : 0.0296 <= eps <= 0.0301).
  { unfold eps, radians. split; nra. }
  replace (radians e) with (PI / 2 - eps) by (unfold eps, radians; field).
  rewrite tan_PI2_minus by lra.
  assert (Ht0 : 0.029 <= tan eps).
  { apply Rle_trans with (eps - eps * eps * eps / 6); [| apply tan_lower; lra].
    assert (eps * eps <= 0.001) by nra.
    assert (eps * eps * eps <= 0.001 * eps) by nra. lra. }
  assert (Ht1 : tan eps <= 0.031).
  { apply Rle_trans with (eps / (1 - eps * eps / 2)); [apply tan_upper; lra |].
    apply Rmult_le_reg_r with (1 - eps * eps / 2); [nra |].
    unfold Rdiv at 1. rewrite Rmult_assoc, Rinv_l by nra. nra. }
  rewrite Rinv_inv. lra.
Qed.

Lemma Rabs_of_nonpos (x : R) : x <= 0 -> Rabs x = - x.
Proof.
  intros H. destruct H as [H | ->].
  - now apply Rabs_left.
  - rewrite Rabs_R0. ring.
Qed.

(** The noon shadow of CL on the two solstices at latitude -21.74 with an
    obstacle of 1.65 m. *)
Lemma CL_winter_shadow (lon : R) :
  let self := CL.init (-21.74) lon 1.65 in
  exists e L : R,
    CL.solar_elevation self (CL.solar_declination self 172) 0 = Ok e
    /\ CL.shadow_length self e = Ok (Finite L)
    /\ 44.8 <= e <= 45
    /\ 1.65 <= L <= 1.67.
Proof.
  intros self. pose proof cooper_degrees_172_bounds as Hd.
  rewrite CL_solar_declination_cooper, CL_solar_elevation_value.
  change (CL.latitude self) with (-21.74).
  assert (Habs : Rabs (-21.74 - cooper_degrees 172)
                 = 21.74 + cooper_degrees 172).
  { rewrite Rabs_of_nonpos by lra. lra. }
  rewrite noon_elevation_closed_form by (rewrite Habs; lra).
  rewrite Habs.
  set (e := 90 - (21.74 + cooper_degrees 172)).
  assert (He : 44.8 <= e <= 45) by (unfold e; lra).
  exists e, (1.65 / tan (radians e)).
  split; [reflexivity |].
  split; [rewrite CL_shadow_length_finite by lra; reflexivity |].
  split; [exact He |].
  pose proof (tan_radians_near_45 e He) as Ht.
  clearbody e. generalize dependent (tan (radians e)). intros t Ht.
  split.
  - apply Rmult_le_reg_r with t; [lra |].
    unfold Rdiv. rewrite Rmult_assoc, Rinv_l by lra. lra.
  - apply Rmult_le_reg_r with t; [lra |].
    unfold Rdiv. rewrite Rmult_assoc, Rinv_l by lra. lra.
Qed.

Lemma CL_summer_shadow (lon : R) :
  let self := CL.init (-21.74) lon 1.65 in
  exists e L : R,
    CL.solar_elevation self (CL.solar_declination self 355) 0 = Ok e
    /\ CL.shadow_length self e = Ok (Finite L)
    /\ 88.28 <= e <= 88.3
    /\ 0.047 <= L <= 0.052.
Proof.
  intros self. pose proof cooper_degrees_355_bounds as Hd.
  rewrite CL_solar_declination_cooper, CL_solar_elevation_value.
  change (CL.latitude self) with (-21.74).
  assert (Habs : Rabs (-21.74 - cooper_degrees 355)
                 = -21.74 - cooper_degrees 355).
  { apply Rabs_pos_eq. lra. }
  rewrite noon_elevation_closed_form by (rewrite Habs; lra).
  rewrite Habs.
  set (e := 90 - (-21.74 - cooper_degrees 355)).
  assert (He : 88.28 <= e <= 88.3) by (unfold e; lra).
  exists e, (1.65 / tan (radians e)).
  split; [reflexivity |].
  split; [rewrite CL_shadow_length_finite by lra; reflexivity |].
  split; [exact He |].
  pose proof (tan_radians_near_90 e He) as Ht.
  unfold Rdiv. lra.
Qed.

(** C5: at latitude -21.74 with an obstacle of 1.65 m, the Cooper
    declination in degrees and the asin elevation at hour angle 0 give a
    noon shadow between 1.65 m and 1.67 m on day 172 (elevation about 44.8
    degrees) and between 0.047 m and 0.052 m on day 355 (elevation about
    88.3 degrees). *)
Theorem reference_site_solstice_shadows (lon : R) :
  (exists e L : R,
      CL.solar_elevation (CL.init (-21.74) lon 1.65)
        (CL.solar_declination (CL.init (-21.74) lon 1.65) 172) 0 = Ok e
      /\ CL.shadow_length (CL.init (-21.74) lon 1.65) e = Ok (Finite L)
      /\ 1.65 <= L <= 1.67)
  /\ (exists e L : R,
      CL.solar_elevation (CL.init (-21.74) lon 1.65)
        (CL.solar_declination (CL.init (-21.74) lon 1.65) 355) 0 = Ok e
      /\ CL.shadow_length (CL.init (-21.74) lon 1.65) e = Ok (Finite L)
      /\ 0.047 <= L <= 0.052).
Proof.
  split.
  - destruct (CL_winter_shadow lon) as (e & L & He & HL & _ & Hb).
    exists e, L. auto.
  - destruct (CL_summer_shadow lon) as (e & L & He & HL & _ & Hb).
    exists e, L. auto.
Qed.

(** C5, as stated, fails: the shadow of day 172 is below 5.5 m and the
    shadow of day 355 is below 1.5 m. *)
Lemma reference_site_bands_counterexample :
  (exists e L : R,
      CL.solar_elevation (CL.init (-21.74) (-48.1) 1.65)
        (CL.solar_declination (CL.init (-21.74) (-48.1) 1.65) 172) 0 = Ok e
      /\ CL.shadow_length (CL.init (-21.74) (-48.1) 1.65) e = Ok (Finite L)
      /\ L < 5.5)
  /\ (exists e L : R,
      CL.solar_elevation (CL.init (-21.74) (-48.1) 1.65)
        (CL.solar_declination (CL.init (-21.74) (-48.1) 1.65) 355) 0 = Ok e
      /\ CL.shadow_length (CL.init (-21.74) (-48.1) 1.65) e = Ok (Finite L)
      /\ L < 1.5).
Proof.
  split.
  - destruct (CL_winter_shadow (-48.1)) as (e & L & He & HL & _ & Hb).
    exists e, L. repeat split; [exact He | exact HL | lra].
  - destruct (CL_summer_shadow (-48.1)) as (e & L & He & HL & _ & Hb).
    exists e, L. repeat split; [exact He | exact HL | lra].
Qed.

(** ** Monotonicity of the shadow length *)

Lemma quotient_decreasing (h t1 t2 : R) :
  0 < h -> 0 < t1 -> t1 < t2 -> 0 < h / t2 < h / t1.
Proof.
  intros Hh H1 H2. split.
  - apply Rdiv_lt_0_compat; lra.
  - unfold Rdiv. apply Rmult_lt_compat_l; [exact Hh |].
    apply Rinv_lt_contravar; [nra | exact H2].
Qed.

Lemma tan_radians_increasing (e1 e2 : R) :
  0 < e1 -> e1 < e2 -> e2 < 90 ->
  0 < tan (radians e1) < tan (radians e2).
Proof.
  intros H0 H1 H2. split; [apply tan_radians_pos; lra |].
  pose proof PI_RGT_0 as HPI.
  apply tan_increasing.
  - apply Rlt_trans with (radians 0); [rewrite radians_0; lra |].
    now apply radians_lt.
  - now apply radians_lt.
  - rewrite <- radians_90. now apply radians_lt.
Qed.

Lemma CG_comprimento_sombra_finite (h e : R) :
  0 < e < 90 ->
  CG.comprimento_sombra h e = Ok (Finite (h / tan (radians e))).
Proof.
  intros H. unfold CG.comprimento_sombra.
  rewrite truediv_ok; [reflexivity |].
  apply Rgt_not_eq, tan_radians_pos, H.
Qed.



(** GE takes the elevation in radians; the same holds below [PI / 2]. *)
Lemma GE_shadow_length_decreasing (h e1 e2 : R) :
  0 < h -> 0 < e1 -> e1 < e2 -> e2 < PI / 2 ->
  exists l1 l2 : R,
    GE.calculate_shadow_length h e1 = Ok (Finite l1)
    /\ GE.calculate_shadow_length h e2 = Ok (Finite l2)
    /\ 0 < l2 < l1.
Proof.
  intros Hh H0 H1 H2.
  assert (Ht1 : 0 < tan e1) by (apply tan_gt_0; lra).
  assert (Ht2 : tan e1 < tan e2) by (apply tan_increasing; lra).
  exists (h / tan e1), (h / tan e2).
  unfold GE.calculate_shadow_length.
  destruct (Rle_dec e1 0) as [Hle | _]; [lra |].
  destruct (Rle_dec e2 0) as [Hle | _]; [lra |].
  rewrite !truediv_ok by lra.
  repeat split; try reflexivity; apply (quotient_decreasing h _ _ Hh Ht1 Ht2).
Qed.

(** ** Dicts and loops *)

Lemma keys_setitem_fresh {V : Type} (d : dict V) (k : string) (v : V) :
  ~ In k (keys d) -> keys (setitem d k v) = keys d ++ [k].
Proof.
  induction d as [| [k' v'] d IH]; simpl; intros Hk; [reflexivity |].
  destruct (String.eqb k' k) eqn:E.
  - apply String.eqb_eq in E. tauto.
  - simpl. f_equal. apply IH. tauto.
Qed.

Lemma keys_setitem_present {V : Type} (d : dict V) (k : string) (v : V) :
  In k (keys d) -> keys (setitem d k v) = keys d.
Proof.
  induction d as [| [k' v'] d IH]; simpl; intros Hk; [contradiction |].
  destruct (String.eqb k' k) eqn:E; [reflexivity |].
  apply String.eqb_neq in E. simpl. f_equal. apply IH.
  destruct Hk; [contradiction | assumption].
Qed.

(** A loop whose body assigns one entry per item, under the key of the
    item, lists the keys in the order of the items when these are
    distinct and new. *)
Lemma for_each_assign_keys {A V : Type} (key : A -> string)
  (body : dict V -> A -> result (dict V)) (l : list A) :
  (forall d x, In x l -> exists v, body d x = Ok (setitem d (key x) v)) ->
  NoDup (map key l) ->
  forall d0 : dict V,
    (forall k, In k (keys d0) -> ~ In k (map key l)) ->
    exists r, for_each l body d0 = Ok r /\ keys r = keys d0 ++ map key l.
Proof.
  induction l as [| x l IH]; intros Hbody Hnd d0 Hfresh.
  - exists d0. simpl. rewrite app_nil_r. split; reflexivity.
  - simpl in Hnd. inversion Hnd as [| ? ? Hx Hnd']; subst.
    destruct (Hbody d0 x (or_introl eq_refl)) as [v Hv].
    assert (Hk : keys (setitem d0 (key x) v) = keys d0 ++ [key x]).
    { apply keys_setitem_fresh. intros Hin.
      apply (Hfresh _ Hin). simpl. now left. }
    destruct (IH (fun d y Hy => Hbody d y (or_intror Hy)) Hnd'
                (setitem d0 (key x) v)) as [r [Hr Hkr]].
    { intros k. rewrite Hk, in_app_iff. simpl.
      intros [Hin | [<- | []]]; [| exact Hx].
      intros Hl. apply (Hfresh _ Hin). simpl. now right. }
    exists r. simpl. rewrite Hv. simpl. split; [exact Hr |].
    rewrite Hkr, Hk, <- app_assoc. reflexivity.
Qed.

(** Whether a step of the seasonal loops raises does not depend on the
    results collected so far. *)
Lemma CL_season_step_assigns (self : CL.SolarShadowAnalyzer)
  (item : string * CL.season) :
  (exists r, CL.season_step self [] item = Ok r) ->
  forall d, exists v, CL.season_step self d item = Ok (setitem d (fst item) v).
Proof.
  destruct item as [k s]. unfold CL.season_step.
  destruct (CL.solar_elevation self (CL.solar_declination self (CL.day s)) 0)
    as [e | x]; simpl; [| intros [r Hr]; discriminate].
  destruct (CL.shadow_length self e) as [L | x]; simpl;
    [| intros [r Hr]; discriminate].
  intros _ d. eexists. reflexivity.
Qed.

Lemma DS_resultados_step_assigns (lat h : R) (item : string * DS.estacao_info) :
  (exists r, DS.resultados_step lat h [] item = Ok r) ->
  forall d,
    exists v, DS.resultados_step lat h d item = Ok (setitem d (fst item) v).
Proof.
  destruct item as [k s]. unfold DS.resultados_step.
  destruct (DS.calcular_elevacao_solar lat
              (DS.calcular_declinacao_solar (DS.dia_ano s)) 0)
    as [e | x]; simpl; [| intros [r Hr]; discriminate].
  destruct (DS.calcular_comprimento_sombra h e) as [L | x]; simpl;
    [| intros [r Hr]; discriminate].
  intros _ d. eexists. reflexivity.
Qed.

(** C7: the seasonal loops of CL and DS return a mapping whose keys are
    the labels of the reference points, in the order of the input dict,
    whatever the computed values.  An input dict has distinct keys, and
    the loop returns at all only if no reference point, taken on its own,
    raises. *)
Theorem seasonal_shadows_preserve_order (self : CL.SolarShadowAnalyzer)
  (lat h : R) (datas : dict DS.estacao_info) :
  NoDup (keys (CL.seasons self)) ->
  NoDup (keys datas) ->
  (forall item, In item (items (CL.seasons self)) ->
     exists r, CL.season_step self [] item = Ok r) ->
  (forall item, In item (items datas) ->
     exists r, DS.resultados_step lat h [] item = Ok r) ->
  (exists results,
      CL.calculate_seasonal_shadows self = Ok results
      /\ keys results = keys (CL.seasons self))
  /\ (exists resultados,
      DS.resultados_loop lat h datas = Ok resultados
      /\ keys resultados = keys datas).
Proof.
  intros HndC HndD HokC HokD. split.
  - apply (for_each_assign_keys fst (CL.season_step self)
             (items (CL.seasons self))
             (fun d x Hx => CL_season_step_assigns self x (HokC x Hx) d)
             HndC []).
    intros k [].
  - apply (for_each_assign_keys fst (DS.resultados_step lat h) (items datas)
             (fun d x Hx => DS_resultados_step_assigns lat h x (HokD x Hx) d)
             HndD []).
    intros k [].
Qed.

(** The declination of the equinox days the scripts use. *)
Lemma cooper_degrees_80 : cooper_degrees 80 = - (23.45 * sin (2 * PI / 365)).
Proof.
  unfold cooper_degrees.
  replace (radians (360 / 365 * IZR (284 + 80)))
    with (- (2 * PI / 365) + 2 * INR 1 * PI)
    by (unfold radians; simpl; field).
  rewrite sin_period, sin_neg. ring.
Qed.

Lemma cooper_degrees_79 : cooper_degrees 79 = - (23.45 * sin (4 * PI / 365)).
Proof.
  unfold cooper_degrees.
  replace (radians (360 / 365 * IZR (284 + 79)))
    with (- (4 * PI / 365) + 2 * INR 1 * PI)
    by (unfold radians; simpl; field).
  rewrite sin_period, sin_neg. ring.
Qed.

Lemma cooper_degrees_266 : cooper_degrees 266 = - (23.45 * sin (PI / 73)).
Proof.
  unfold cooper_degrees.
  replace (radians (360 / 365 * IZR (284 + 266)))
    with (PI / 73 + PI + 2 * INR 1 * PI)
    by (unfold radians; simpl; field).
  rewrite sin_period, neg_sin. ring.
Qed.

Lemma sin_small (y : R) : 0 < y < 0.05 -> 0 < sin y < 0.05.
Proof.
  intros H. pose proof PI_bounds as HPI. split.
  - apply sin_gt_0; lra.
  - apply Rlt_trans with y; [apply sin_lt_x |]; lra.
Qed.

Lemma cooper_degrees_equinox_bounds (n : Z) :
  n = 79%Z \/ n = 80%Z \/ n = 266%Z -> -2 < cooper_degrees n < 0.
Proof.
  pose proof PI_bounds as HPI.
  intros [-> | [-> | ->]].
  - rewrite cooper_degrees_79.
    assert (0 < sin (4 * PI / 365) < 0.05) by (apply sin_small; lra). lra.
  - rewrite cooper_degrees_80.
    assert (0 < sin (2 * PI / 365) < 0.05) by (apply sin_small; lra). lra.
  - rewrite cooper_degrees_266.
    assert (0 < sin (PI / 73) < 0.05) by (apply sin_small; lra). lra.
Qed.

(** Away from the zenith the two seasonal steps raise nothing. *)
Lemma noon_shadow_defined (lat dec h : R) :
  Rabs (lat - dec) <= 180 -> lat <> dec ->
  exists L,
    DS.calcular_comprimento_sombra h (90 - Rabs (lat - dec)) = Ok L.
Proof.
  intros H Hne.
  destruct (Rle_dec (90 - Rabs (lat - dec)) 0) as [Hle | Hgt].
  - exists Infinite. now apply DS_comprimento_sombra_infinite.
  - eexists. apply DS_comprimento_sombra_finite.
    assert (0 < Rabs (lat - dec)) by (apply Rabs_pos_lt; lra). lra.
Qed.

Lemma CL_shadow_length_as_DS (self : CL.SolarShadowAnalyzer) (e : R) :
  CL.shadow_length self e
  = DS.calcular_comprimento_sombra (CL.obstacle_height self) e.
Proof. reflexivity. Qed.

Lemma CL_season_step_ok (self : CL.SolarShadowAnalyzer)
  (k : string) (s : CL.season) :
  Rabs (CL.latitude self - cooper_degrees (CL.day s)) <= 180 ->
  CL.latitude self <> cooper_degrees (CL.day s) ->
  exists r, CL.season_step self [] (k, s) = Ok r.
Proof.
  intros H Hne. unfold CL.season_step.
  rewrite CL_solar_declination_cooper, CL_solar_elevation_value.
  rewrite noon_elevation_closed_form by exact H.
  cbn [bind]. rewrite CL_shadow_length_as_DS.
  destruct (noon_shadow_defined _ _ (CL.obstacle_height self) H Hne)
    as [L HL].
  rewrite HL. cbn [bind]. eexists. reflexivity.
Qed.

Lemma DS_resultados_step_ok (lat h : R) (k : string) (s : DS.estacao_info) :
  Rabs (lat - cooper_degrees (DS.dia_ano s)) <= 180 ->
  lat <> cooper_degrees (DS.dia_ano s) ->
  exists r, DS.resultados_step lat h [] (k, s) = Ok r.
Proof.
  intros H Hne. unfold DS.resultados_step.
  rewrite DS_declinacao_solar_cooper, DS_elevacao_solar_value.
  rewrite noon_elevation_closed_form by exact H. cbn [bind].
  destruct (noon_shadow_defined _ _ h H Hne) as [L HL].
  rewrite HL. cbn [bind]. eexists. reflexivity.
Qed.

Lemma DS_latitude_decimal_bounds : -21.74 < DS.latitude_decimal < -21.73.
Proof.
  unfold DS.latitude_decimal, DS.graus_para_decimal.
  replace (contains ["S"%string; "W"%string] "S") with true by reflexivity.
  lra.
Qed.

(** At the reference site no reference day has the sun at the zenith. *)
Lemma reference_site_off_zenith (lat : R) (n : Z) :
  -21.74 <= lat < -21.73 ->
  n = 355%Z \/ n = 172%Z \/ n = 79%Z \/ n = 80%Z \/ n = 266%Z ->
  Rabs (lat - cooper_degrees n) <= 180 /\ lat <> cooper_degrees n.
Proof.
  intros Hlat Hn.
  pose proof (cooper_degrees_bound n) as Hb.
  split.
  - unfold Rabs. destruct (Rcase_abs (lat - cooper_degrees n)); lra.
  - destruct Hn as [-> | [-> | Hn]].
    + pose proof cooper_degrees_355_bounds. lra.
    + pose proof cooper_degrees_172_bounds. lra.
    + pose proof (cooper_degrees_equinox_bounds n Hn). lra.
Qed.

Ltac distinct_keys :=
  repeat (constructor;
          [ simpl; intros Hin;
            repeat (destruct Hin as [Hin | Hin]; [discriminate Hin |]);
            exact Hin
          | ]);
  constructor.

Lemma seasonal_shadows_preserve_order_witness :
  (exists results,
      CL.calculate_seasonal_shadows (CL.init (-21.74) (-48.1) 1.65)
        = Ok results
      /\ keys results = keys (CL.seasons (CL.init (-21.74) (-48.1) 1.65)))
  /\ (exists resultados,
      DS.resultados_loop DS.latitude_decimal DS.altura_obstaculo
        DS.datas_estacoes = Ok resultados
      /\ keys resultados = keys DS.datas_estacoes).
Proof.
  apply seasonal_shadows_preserve_order.
  - distinct_keys.
  - distinct_keys.
  - intros [k s] Hin.
    assert (Hday : CL.day s = 355%Z \/ CL.day s = 172%Z \/ CL.day s = 79%Z
                   \/ CL.day s = 80%Z \/ CL.day s = 266%Z).
    { simpl in Hin.
      destruct Hin as [E | [E | [E | [E | []]]]]; inversion E; simpl; tauto. }
    assert (Hlat : -21.74 <= CL.latitude (CL.init (-21.74) (-48.1) 1.65)
                   < -21.73) by (simpl; lra).
    destruct (reference_site_off_zenith _ _ Hlat Hday) as [H1 H2].
    now apply CL_season_step_ok.
  - intros [k s] Hin.
    assert (Hday : DS.dia_ano s = 355%Z \/ DS.dia_ano s = 172%Z
                   \/ DS.dia_ano s = 79%Z \/ DS.dia_ano s = 80%Z
                   \/ DS.dia_ano s = 266%Z).
    { simpl in Hin.
      destruct Hin as [E | [E | [E | [E | []]]]]; inversion E; simpl; tauto. }
    assert (Hlat : -21.74 <= DS.latitude_decimal < -21.73)
      by (pose proof DS_latitude_decimal_bounds; lra).
    destruct (reference_site_off_zenith _ _ Hlat Hday) as [H1 H2].
    now apply DS_resultados_step_ok.
Defined.

(** ** No hidden state *)

Lemma for_each_rel {A S S' : Type} (R : S -> S' -> Prop)
  (body : S -> A -> result S) (body' : S' -> A -> result S') (l : list A) :
  (forall s s' x, R s s' -> result_rel R (body s x) (body' s' x)) ->
  forall s s', R s s' ->
    result_rel R (for_each l body s) (for_each l body' s').
Proof.
  intros Hstep. induction l as [| x l IH]; intros s s' Hs; simpl.
  - exact Hs.
  - specialize (Hstep s s' x Hs).
    destruct (body s x) as [t | e], (body' s' x) as [t' | e'];
      simpl in *; try contradiction.
    + now apply IH.
    + exact Hstep.
Qed.

Lemma for_each_invariant {A S : Type} (P : S -> Prop)
  (body : S -> A -> result S) (l : list A) :
  (forall s x t, P s -> body s x = Ok t -> P t) ->
  forall s t, P s -> for_each l body s = Ok t -> P t.
Proof.
  intros Hstep. induction l as [| x l IH]; intros s t Hs; simpl.
  - intros E. inversion E; subst. exact Hs.
  - destruct (body s x) as [u | e] eqn:E; simpl; [| discriminate].
    apply IH. now apply (Hstep s x u).
Qed.

Lemma for_each_ext {A S : Type} (body body' : S -> A -> result S)
  (l : list A) :
  (forall s x, body s x = body' s x) ->
  forall s, for_each l body s = for_each l body' s.
Proof.
  intros Hext. induction l as [| x l IH]; intros s; simpl; [reflexivity |].
  rewrite Hext. destruct (body' s x) as [t | e]; simpl; [apply IH | reflexivity].
Qed.

(** A step of CL reads the latitude and the obstacle height of the
    object, nothing else of it. *)
Lemma CL_season_step_ext (a b : CL.SolarShadowAnalyzer)
  (d : dict CL.season_result) (item : string * CL.season) :
  CL.latitude a = CL.latitude b ->
  CL.obstacle_height a = CL.obstacle_height b ->
  CL.season_step a d item = CL.season_step b d item.
Proof.
  intros Hlat Hh. destruct item as [k s].
  unfold CL.season_step, CL.solar_declination, CL.solar_elevation,
    CL.shadow_length.
  rewrite Hlat, Hh. reflexivity.
Qed.

Lemma GE_season_step_rel (g g' : GE.globals) (item : string * Z) :
  GE_same_but_longitude g g' ->
  result_rel GE_same_but_longitude
    (GE.season_step g item) (GE.season_step g' item).
Proof.
  intros (Hlat & Hh & Hout). unfold GE_outputs in Hout.
  injection Hout as Hsr Hcd.
  destruct item as [k n]. unfold GE.season_step, GE.calculate_hour_angle.
  rewrite Hlat, Hh, Hsr, Hcd.
  destruct (GE.calculate_solar_elevation (GE.latitude g')
              (GE.calculate_solar_declination n) 0) as [e | x];
    simpl; [| reflexivity].
  destruct (GE.calculate_shadow_length (GE.obstacle_height g') e)
    as [L | x]; simpl; [| reflexivity].
  repeat split.
Qed.

Lemma GE_season_step_inputs (g t : GE.globals) (item : string * Z) :
  GE.season_step g item = Ok t -> GE_inputs t = GE_inputs g.
Proof.
  destruct item as [k n]. unfold GE.season_step.
  destruct (GE.calculate_solar_elevation _ _ _) as [e | x];
    simpl; [| discriminate].
  destruct (GE.calculate_shadow_length _ _) as [L | x];
    simpl; [| discriminate].
  intros E. inversion E; subst. reflexivity.
Qed.

Lemma GE_seasonal_block_inputs (g t : GE.globals) :
  GE.seasonal_block g = Ok t -> GE_inputs t = GE_inputs g.
Proof.
  unfold GE.seasonal_block. intros H.
  apply (for_each_invariant (fun s => GE_inputs s = GE_inputs g)
           GE.season_step (items (GE.seasons g))) in H.
  - exact H.
  - intros s x u Hs Hu. rewrite <- Hs. now apply GE_season_step_inputs with x.
  - reflexivity.
Qed.

(** C8: the seasonal computation is a function of the latitude, the
    obstacle height and the reference points alone.  In CL the result of
    [calculate_seasonal_shadows] does not depend on the longitude the
    object also holds.  In GE the block that fills [shadow_results] and
    [calculation_details] leaves the same two dicts whatever the longitude
    and whatever the two dicts held before, and running it a second time
    on the state it left gives that state again. *)
Theorem seasonal_shadows_deterministic :
  (forall (lat h lon lon' : R) (seasons : dict CL.season),
      CL.calculate_seasonal_shadows
        {| CL.latitude := lat; CL.longitude := lon;
           CL.obstacle_height := h; CL.seasons := seasons |}
      = CL.calculate_seasonal_shadows
          {| CL.latitude := lat; CL.longitude := lon';
             CL.obstacle_height := h; CL.seasons := seasons |})
  /\ (forall (lat h lon lon' : R) (seasons : dict Z)
        (sr sr' : dict pyfloat) (cd cd' : dict GE.details),
      result_map GE_outputs
        (GE.seasonal_block
           {| GE.latitude := lat; GE.longitude := lon;
              GE.obstacle_height := h; GE.seasons := seasons;
              GE.shadow_results := sr; GE.calculation_details := cd |})
      = result_map GE_outputs
          (GE.seasonal_block
             {| GE.latitude := lat; GE.longitude := lon';
                GE.obstacle_height := h; GE.seasons := seasons;
                GE.shadow_results := sr'; GE.calculation_details := cd' |}))
  /\ (forall g : GE.globals,
      (g1 <- GE.seasonal_block g ;; GE.seasonal_block g1)
      = GE.seasonal_block g).
Proof.
  split; [| split].
  - intros lat h lon lon' seasons. unfold CL.calculate_seasonal_shadows.
    apply for_each_ext. intros d item.
    apply CL_season_step_ext; reflexivity.
  - intros lat h lon lon' seasons sr sr' cd cd'.
    unfold GE.seasonal_block. simpl.
    match goal with
    | |- result_map _ (for_each _ _ ?s) = result_map _ (for_each _ _ ?s') =>
        pose proof (for_each_rel GE_same_but_longitude
                      GE.season_step GE.season_step (items seasons)
                      (fun a b x => GE_season_step_rel a b x) s s') as H
    end.
    match type of H with
    | ?P -> _ => assert (H0 : P) by (repeat split)
    end.
    specialize (H H0). clear H0.
    destruct (for_each _ _ _) as [t | e], (for_each _ _ _) as [t' | e'];
      simpl in *; try contradiction.
    + destruct H as (_ & _ & Hout). now rewrite Hout.
    + now rewrite H.
  - intros g. destruct (GE.seasonal_block g) as [g1 | e] eqn:E;
      simpl; [| reflexivity].
    pose proof (GE_seasonal_block_inputs g g1 E) as Hin.
    unfold GE_inputs in Hin. injection Hin as Hlat Hlon Hh Hs.
    rewrite <- E. unfold GE.seasonal_block.
    rewrite Hlat, Hlon, Hh, Hs. reflexivity.
Qed.

(** ** The clamp of the inverse sine, over binary64 *)

Lemma SFltb_antisym (f1 f2 : SpecFloat.spec_float) :
  SpecFloat.SFltb f1 f2 = true -> SpecFloat.SFltb f2 f1 = false.
Proof.
  unfold SpecFloat.SFltb, SpecFloat.SFcompare.
  destruct f1 as [s1 | s1 | | s1 m1 e1], f2 as [s2 | s2 | | s2 m2 e2];
    try destruct s1; try destruct s2; simpl;
    try discriminate; try reflexivity.
  - rewrite (Z.compare_antisym e1 e2).
    destruct (e1 ?= e2)%Z; simpl; try discriminate; try reflexivity.
    rewrite !Pos.compare_cont_spec. simpl.
    rewrite (Pos.compare_antisym m1 m2).
    destruct (m1 ?= m2)%positive; simpl; try discriminate; reflexivity.
  - rewrite (Z.compare_antisym e1 e2).
    destruct (e1 ?= e2)%Z; simpl; try discriminate; try reflexivity.
    rewrite !Pos.compare_cont_spec. simpl.
    rewrite (Pos.compare_antisym m1 m2).
    destruct (m1 ?= m2)%positive; simpl; try discriminate; reflexivity.
Qed.

Section Binary64.

Import Floats.
Local Open Scope float_scope.

Lemma B64_ltb_antisym (x y : float) :
  ltb x y = true -> ltb y x = false.
Proof. rewrite !ltb_spec. apply SFltb_antisym. Qed.

(** Whatever float the sum is (a NaN included), the clamped value passes
    the domain check of [math.asin]. *)
Lemma B64_clamped_asin_ok (libm_asin : float -> float)
  (x : float) :
  B64.math_asin libm_asin (B64.py_max (-1) (B64.py_min 1 x))
  = Ok (libm_asin (B64.py_max (-1) (B64.py_min 1 x))).
Proof.
  unfold B64.math_asin, B64.py_max, B64.py_min.
  destruct (ltb x 1) eqn:E1.
  - destruct (ltb (-1) x) eqn:E2.
    + rewrite (B64_ltb_antisym _ _ E2), (B64_ltb_antisym _ _ E1). reflexivity.
    + reflexivity.
  - reflexivity.
Qed.

(** GE raises only when [math.sin] or [math.cos] does, that is on an
    infinite argument; the inverse sine never raises. *)
Lemma B64_GE_elevation_total
  (libm_sin libm_cos libm_asin : float -> float)
  (latitude declination hour_angle : float) :
  is_infinity (B64.radians latitude) = false ->
  is_infinity declination = false ->
  is_infinity hour_angle = false ->
  exists v,
    B64.GE_calculate_solar_elevation libm_sin libm_cos libm_asin
      latitude declination hour_angle = Ok v.
Proof.
  intros H1 H2 H3.
  unfold B64.GE_calculate_solar_elevation, B64.math_sin, B64.math_cos.
  rewrite H1, H2, H3. cbn [bind].
  rewrite B64_clamped_asin_ok. cbn [bind]. eexists. reflexivity.
Qed.

(** CL and DS hand the rounded sum to [math.asin] unclamped. *)
Lemma B64_unclamped_asin_raises
  (libm_asin : float -> float) (x : float) :
  ltb 1 x = true -> B64.math_asin libm_asin x = Raise ValueError.
Proof.
  intros H. unfold B64.math_asin. rewrite H, orb_true_r. reflexivity.
Qed.

(** CL and DS raise as soon as the rounded sum exceeds 1. *)
Lemma B64_CL_elevation_raises
  (libm_sin libm_cos libm_asin : float -> float)
  (latitude declination hour_angle : float) :
  is_infinity (B64.radians latitude) = false ->
  is_infinity (B64.radians declination) = false ->
  is_infinity (B64.radians hour_angle) = false ->
  ltb 1 (libm_sin (B64.radians latitude) * libm_sin (B64.radians declination)
         + libm_cos (B64.radians latitude) * libm_cos (B64.radians declination)
           * libm_cos (B64.radians hour_angle)) = true ->
  B64.CL_solar_elevation libm_sin libm_cos libm_asin
    latitude declination hour_angle = Raise ValueError
  /\ B64.DS_calcular_elevacao_solar libm_sin libm_cos libm_asin
    latitude declination hour_angle = Raise ValueError.
Proof.
  intros H1 H2 H3 Hsum.
  unfold B64.CL_solar_elevation, B64.DS_calcular_elevacao_solar,
    B64.math_sin, B64.math_cos.
  rewrite H1, H2, H3. cbn [bind].
  rewrite (B64_unclamped_asin_raises _ _ Hsum). split; reflexivity.
Qed.

(** C2: at latitude 12 and declination 12 degrees, hour angle 0, the sum
    [sin lat * sin dec + cos lat * cos dec * cos ha] rounds to
    [1.0000000000000002].  CL and DS pass it to [math.asin], which raises
    [ValueError]; GE, on the same angles, clamps it and returns. *)
Theorem elevation_domain_error_at_12
  (libm_sin libm_cos libm_asin : float -> float) :
  libm_sin (B64.radians 12) = B64.sin_radians_12 ->
  libm_cos (B64.radians 12) = B64.cos_radians_12 ->
  libm_cos 0 = 1 ->
  B64.CL_solar_elevation libm_sin libm_cos libm_asin 12 12 0
    = Raise ValueError
  /\ B64.DS_calcular_elevacao_solar libm_sin libm_cos libm_asin 12 12 0
    = Raise ValueError
  /\ exists v,
      B64.GE_calculate_solar_elevation libm_sin libm_cos libm_asin
        12 (B64.radians 12) 0 = Ok v.
Proof.
  intros Hsin Hcos Hcos0.
  assert (Hinf : is_infinity (B64.radians 12) = false)
    by (vm_compute; reflexivity).
  assert (Hinf0 : is_infinity 0 = false) by (vm_compute; reflexivity).
  assert (Hraise :
    B64.CL_solar_elevation libm_sin libm_cos libm_asin 12 12 0
      = Raise ValueError
    /\ B64.DS_calcular_elevacao_solar libm_sin libm_cos libm_asin 12 12 0
      = Raise ValueError).
  { apply B64_CL_elevation_raises; try assumption.
    change (B64.radians 0) with 0.
    rewrite Hsin, Hcos, Hcos0. vm_compute. reflexivity. }
  destruct Hraise as [HCL HDS].
  split; [exact HCL | split; [exact HDS |]].
  apply B64_GE_elevation_total; assumption.
Qed.

Lemma elevation_domain_error_at_12_witness :
  B64.CL_solar_elevation
    (fun _ => B64.sin_radians_12)
    (fun x => if eqb x 0 then 1 else B64.cos_radians_12)
    (fun x => x) 12 12 0
  = Raise ValueError
  /\ B64.DS_calcular_elevacao_solar
    (fun _ => B64.sin_radians_12)
    (fun x => if eqb x 0 then 1 else B64.cos_radians_12)
    (fun x => x) 12 12 0
  = Raise ValueError
  /\ exists v,
      B64.GE_calculate_solar_elevation
        (fun _ => B64.sin_radians_12)
        (fun x => if eqb x 0 then 1 else B64.cos_radians_12)
        (fun x => x) 12 (B64.radians 12) 0
      = Ok v.
Proof.
  apply elevation_domain_error_at_12.
  - reflexivity.
  - vm_compute. reflexivity.
  - vm_compute. reflexivity.
Defined.

End Binary64.

(** * Further properties of the code *)

(** ** Range and daily maximum of the elevation *)

Lemma asin_le (x y : R) : -1 <= x -> x <= y -> y <= 1 -> asin x <= asin y.
Proof.
  intros Hx Hxy Hy.
  destruct (Rle_lt_dec (asin x) (asin y)) as [H | H]; [exact H | exfalso].
  pose proof (asin_bound x) as Bx. pose proof (asin_bound y) as By.
  assert (Hs : sin (asin y) < sin (asin x)).
  { apply sin_increasing_1; lra. }
  rewrite !sin_asin in Hs by lra. lra.
Qed.

Lemma degrees_le (x y : R) : x <= y -> degrees x <= degrees y.
Proof.
  intros H. unfold degrees. apply Rmult_le_compat_r; [| exact H].
  pose proof PI_RGT_0. apply Rlt_le, Rdiv_lt_0_compat; lra.
Qed.

Lemma degrees_asin_bound (x : R) : -90 <= degrees (asin x) <= 90.
Proof.
  pose proof (asin_bound x) as [Hlo Hhi]. split.
  - replace (-90) with (degrees (- (PI / 2)))
      by (unfold degrees; field; apply PI_neq0).
    now apply degrees_le.
  - rewrite <- degrees_PI2. now apply degrees_le.
Qed.

(** X3: the elevation never leaves its range.  Whatever CL and DS return
    is an angle between -90 and 90 degrees (they raise instead of
    returning when rounding takes the sum out of [[-1, 1]]); GE, which
    clamps, returns an angle between 0 and [PI / 2] radians. *)
Theorem elevation_range (self : CL.SolarShadowAnalyzer) (lat dec ha : R) :
  (forall a, CL.solar_elevation self dec ha = Ok a -> -90 <= a <= 90)
  /\ (forall a, DS.calcular_elevacao_solar lat dec ha = Ok a ->
                -90 <= a <= 90)
  /\ (exists a, GE.calculate_solar_elevation lat dec ha = Ok a
                /\ 0 <= a <= PI / 2).
Proof.
  split; [| split].
  - intros a E. destruct (CL_solar_elevation_returned _ _ _ _ E) as [_ ->].
    apply degrees_asin_bound.
  - intros a E. destruct (DS_elevacao_solar_returned _ _ _ _ E) as [_ ->].
    apply degrees_asin_bound.
  - eexists. split; [apply GE_solar_elevation_value |].
    cbv zeta. pose proof (asin_bound (sin_alpha (radians lat) dec ha)) as Hb.
    pose proof PI_RGT_0.
    destruct (Rlt_dec 0 (asin (sin_alpha (radians lat) dec ha))); lra.
Qed.

Lemma cos_radians_nonneg (x : R) : -90 <= x <= 90 -> 0 <= cos (radians x).
Proof.
  intros [Hlo Hhi]. apply cos_ge_0.
  - replace (- (PI / 2)) with (radians (-90)) by (unfold radians; field).
    now apply radians_le.
  - rewrite <- radians_90. now apply radians_le.
Qed.

Lemma sin_alpha_noon_max (a b c : R) :
  0 <= cos a -> 0 <= cos b -> sin_alpha a b c <= sin_alpha a b 0.
Proof.
  intros Ha Hb. unfold sin_alpha. rewrite cos_0.
  pose proof (COS_bound c) as [_ Hc].
  assert (0 <= cos a * cos b) by (apply Rmult_le_pos; assumption).
  nra.
Qed.

Lemma sin_alpha_even (a b c : R) : sin_alpha a b (- c) = sin_alpha a b c.
Proof. unfold sin_alpha. rewrite cos_neg. reflexivity. Qed.

Lemma radians_opp (x : R) : radians (- x) = - radians x.
Proof. unfold radians. ring. Qed.

(** X4: the sun is highest at solar noon.  For a latitude and a
    declination between -90 and 90 degrees: 12 h is hour angle 0, the
    hours [12 + t] and [12 - t] have opposite hour angles, opposite hour
    angles give the same outcome, and whenever CL (or DS) returns an
    elevation both at noon and at another hour, the one at noon is the
    larger.  That a value is returned is not claimed: at the zenith the
    rounded sum can exceed 1 and the inverse sine raise. *)
Theorem noon_elevation_is_daily_maximum (self : CL.SolarShadowAnalyzer)
  (lat dec t : R) :
  CL.latitude self = lat ->
  -90 <= lat <= 90 -> -90 <= dec <= 90 ->
  CL.solar_hour_angle self 12 = 0
  /\ CL.solar_hour_angle self (12 - t) = - CL.solar_hour_angle self (12 + t)
  /\ (forall w, CL.solar_elevation self dec (- w)
                = CL.solar_elevation self dec w)
  /\ (forall w, DS.calcular_elevacao_solar lat dec (- w)
                = DS.calcular_elevacao_solar lat dec w)
  /\ (forall noon at_t : R,
        CL.solar_elevation self dec (CL.solar_hour_angle self 12) = Ok noon ->
        CL.solar_elevation self dec (CL.solar_hour_angle self (12 + t))
        = Ok at_t ->
        at_t <= noon)
  /\ (forall noon at_t : R,
        DS.calcular_elevacao_solar lat dec 0 = Ok noon ->
        DS.calcular_elevacao_solar lat dec (15 * t) = Ok at_t ->
        at_t <= noon).
Proof.
  intros Hlat Hl Hd.
  assert (Hmax : forall w,
             degrees (asin (sin_alpha (radians lat) (radians dec)
                              (radians w)))
             <= degrees (asin (sin_alpha (radians lat) (radians dec)
                                 (radians 0)))).
  { intros w. apply degrees_le, asin_le.
    - apply sin_alpha_bound.
    - rewrite radians_0.
      apply sin_alpha_noon_max; now apply cos_radians_nonneg.
    - apply sin_alpha_bound. }
  split; [unfold CL.solar_hour_angle; ring |].
  split; [unfold CL.solar_hour_angle; ring |].
  split; [| split; [| split]].
  - intros w. rewrite !CL_solar_elevation_unfold.
    now rewrite radians_opp, sin_alpha_even.
  - intros w. rewrite !DS_elevacao_solar_unfold.
    now rewrite radians_opp, sin_alpha_even.
  - intros noon at_t.
    replace (CL.solar_hour_angle self 12) with 0
      by (unfold CL.solar_hour_angle; ring).
    intros E0 Et.
    destruct (CL_solar_elevation_returned _ _ _ _ E0) as [_ ->].
    destruct (CL_solar_elevation_returned _ _ _ _ Et) as [_ ->].
    rewrite Hlat. apply Hmax.
  - intros noon at_t E0 Et.
    destruct (DS_elevacao_solar_returned _ _ _ _ E0) as [_ ->].
    destruct (DS_elevacao_solar_returned _ _ _ _ Et) as [_ ->].
    apply Hmax.
Qed.

Lemma noon_elevation_is_daily_maximum_witness :
  CL.solar_hour_angle CL.main_analyzer 12 = 0
  /\ CL.solar_hour_angle CL.main_analyzer (12 - 3)
     = - CL.solar_hour_angle CL.main_analyzer (12 + 3)
  /\ (forall w, CL.solar_elevation CL.main_analyzer 23.45 (- w)
                = CL.solar_elevation CL.main_analyzer 23.45 w)
  /\ (forall w,
        DS.calcular_elevacao_solar (CL.latitude CL.main_analyzer) 23.45 (- w)
        = DS.calcular_elevacao_solar (CL.latitude CL.main_analyzer) 23.45 w)
  /\ (forall noon at_t : R,
        CL.solar_elevation CL.main_analyzer 23.45
          (CL.solar_hour_angle CL.main_analyzer 12) = Ok noon ->
        CL.solar_elevation CL.main_analyzer 23.45
          (CL.solar_hour_angle CL.main_analyzer (12 + 3)) = Ok at_t ->
        at_t <= noon)
  /\ (forall noon at_t : R,
        DS.calcular_elevacao_solar (CL.latitude CL.main_analyzer) 23.45 0
        = Ok noon ->
        DS.calcular_elevacao_solar (CL.latitude CL.main_analyzer) 23.45
          (15 * 3) = Ok at_t ->
        at_t <= noon).
Proof.
  apply (noon_elevation_is_daily_maximum CL.main_analyzer
           (CL.latitude CL.main_analyzer) 23.45 3).
  - reflexivity.
  - simpl. lra.
  - lra.
Defined.

(** ** Elevation and shadow length together *)

Lemma GE_shadow_length_finite (h e : R) :
  0 < e < PI / 2 ->
  GE.calculate_shadow_length h e = Ok (Finite (h / tan e)).
Proof.
  intros H. unfold GE.calculate_shadow_length.
  destruct (Rle_dec e 0) as [Hle | _]; [lra |].
  rewrite truediv_ok; [reflexivity |].
  apply Rgt_not_eq, tan_gt_0; lra.
Qed.

Lemma positive_quotient (h t : R) : 0 < h -> 0 < t -> 0 < h / t.
Proof. intros Hh Ht. apply Rdiv_lt_0_compat; assumption. Qed.

(** X5: fed with an elevation the script has computed, the guarded
    shadow length is never negative.  Whenever the elevation function
    returns an angle other than the zenith itself, the shadow length
    returns too: [float('inf')] when the elevation is not positive and a
    positive finite number otherwise (CL and DS in degrees, GE in
    radians). *)
Theorem shadow_of_computed_elevation (self : CL.SolarShadowAnalyzer)
  (lat h dec ha : R) :
  CL.latitude self = lat ->
  CL.obstacle_height self = h ->
  0 < h ->
  (forall e : R,
     CL.solar_elevation self dec ha = Ok e -> e <> 90 ->
     exists L : pyfloat,
       CL.shadow_length self e = Ok L
       /\ (e <= 0 -> L = Infinite)
       /\ (0 < e -> exists x, L = Finite x /\ 0 < x))
  /\ (forall e : R,
        DS.calcular_elevacao_solar lat dec ha = Ok e -> e <> 90 ->
        exists L : pyfloat,
          DS.calcular_comprimento_sombra h e = Ok L
          /\ (e <= 0 -> L = Infinite)
          /\ (0 < e -> exists x, L = Finite x /\ 0 < x))
  /\ (forall e : R,
        GE.calculate_solar_elevation lat dec ha = Ok e -> e <> PI / 2 ->
        exists L : pyfloat,
          GE.calculate_shadow_length h e = Ok L
          /\ (e <= 0 -> L = Infinite)
          /\ (0 < e -> exists x, L = Finite x /\ 0 < x)).
Proof.
  intros Hlat Hh Hpos.
  assert (HDS : forall e, -90 <= e <= 90 -> e <> 90 ->
            exists L : pyfloat,
              DS.calcular_comprimento_sombra h e = Ok L
              /\ (e <= 0 -> L = Infinite)
              /\ (0 < e -> exists x, L = Finite x /\ 0 < x)).
  { intros e Hr Hne. destruct (Rle_dec e 0) as [Hle | Hgt].
    - exists Infinite.
      rewrite DS_comprimento_sombra_infinite by exact Hle.
      repeat split; try reflexivity. intros H0. lra.
    - exists (Finite (h / tan (radians e))).
      rewrite DS_comprimento_sombra_finite by lra.
      repeat split; try reflexivity; [intros H0; lra |].
      intros _. eexists. split; [reflexivity |].
      apply positive_quotient; [exact Hpos | apply tan_radians_pos; lra]. }
  split; [| split].
  - intros e E Hne. rewrite CL_shadow_length_as_DS, Hh.
    apply HDS; [| exact Hne].
    destruct (CL_solar_elevation_returned _ _ _ _ E) as [_ ->].
    apply degrees_asin_bound.
  - intros e E Hne. apply HDS; [| exact Hne].
    destruct (DS_elevacao_solar_returned _ _ _ _ E) as [_ ->].
    apply degrees_asin_bound.
  - intros e. rewrite GE_solar_elevation_unfold, GE_clamped_asin_never_raises.
    cbn [bind].
    set (a := asin (py_max (-1) (py_min 1 (sin_alpha (radians lat) dec ha)))).
    pose proof (asin_bound
                  (py_max (-1) (py_min 1 (sin_alpha (radians lat) dec ha))))
      as Hb.
    fold a in Hb. intros E Hne.
    destruct (Rlt_dec 0 a) as [Hgt | Hle].
    + assert (Ee : e = a) by congruence. subst e.
      exists (Finite (h / tan a)).
      rewrite GE_shadow_length_finite by lra.
      repeat split; try reflexivity; [intros H0; lra |].
      intros _. eexists. split; [reflexivity |].
      apply positive_quotient; [exact Hpos | apply tan_gt_0; lra].
    + assert (Ee : e = 0) by congruence. subst e.
      exists Infinite.
      rewrite GE_shadow_length_infinite by lra.
      repeat split; try reflexivity. intros H0. lra.
Qed.

Lemma shadow_of_computed_elevation_witness :
  (forall e : R,
     CL.solar_elevation CL.main_analyzer 23.45 0 = Ok e -> e <> 90 ->
     exists L : pyfloat,
       CL.shadow_length CL.main_analyzer e = Ok L
       /\ (e <= 0 -> L = Infinite)
       /\ (0 < e -> exists x, L = Finite x /\ 0 < x))
  /\ (forall e : R,
        DS.calcular_elevacao_solar (CL.latitude CL.main_analyzer) 23.45 0
        = Ok e -> e <> 90 ->
        exists L : pyfloat,
          DS.calcular_comprimento_sombra 1.65 e = Ok L
          /\ (e <= 0 -> L = Infinite)
          /\ (0 < e -> exists x, L = Finite x /\ 0 < x))
  /\ (forall e : R,
        GE.calculate_solar_elevation (CL.latitude CL.main_analyzer) 23.45 0
        = Ok e -> e <> PI / 2 ->
        exists L : pyfloat,
          GE.calculate_shadow_length 1.65 e = Ok L
          /\ (e <= 0 -> L = Infinite)
          /\ (0 < e -> exists x, L = Finite x /\ 0 < x)).
Proof.
  apply (shadow_of_computed_elevation CL.main_analyzer
           (CL.latitude CL.main_analyzer) 1.65 23.45 0).
  - reflexivity.
  - reflexivity.
  - lra.
Defined.


Lemma tan_radians_lt (e1 e2 : R) :
  0 < e1 -> e1 < e2 -> e2 < 90 -> tan (radians e1) < tan (radians e2).
Proof. intros H0 H1 H2. now apply tan_radians_increasing. Qed.



(** ** What the seasonal loops store *)

Lemma getitem_setitem_same {V : Type} (d : dict V) (k : string) (v : V) :
  getitem (setitem d k v) k = Some v.
Proof.
  induction d as [| [k' v'] d IH]; simpl.
  - now rewrite String.eqb_refl.
  - destruct (String.eqb k' k) eqn:E; simpl; rewrite E; [reflexivity | exact IH].
Qed.

Lemma getitem_setitem_other {V : Type} (d : dict V) (k k' : string) (v : V) :
  k' <> k -> getitem (setitem d k v) k' = getitem d k'.
Proof.
  intros Hne. induction d as [| [k0 v0] d IH]; simpl.
  - destruct (String.eqb k k') eqn:E; [| reflexivity].
    apply String.eqb_eq in E. congruence.
  - destruct (String.eqb k0 k) eqn:E; simpl.
    + apply String.eqb_eq in E. subst k0.
      destruct (String.eqb k k') eqn:E'; [| reflexivity].
      apply String.eqb_eq in E'. congruence.
    + destruct (String.eqb k0 k'); [reflexivity | exact IH].
Qed.

Lemma getitem_absent {V : Type} (d : dict V) (k : string) :
  ~ In k (keys d) -> getitem d k = None.
Proof.
  induction d as [| [k' v'] d IH]; simpl; intros H; [reflexivity |].
  destruct (String.eqb k' k) eqn:E.
  - apply String.eqb_eq in E. tauto.
  - apply IH. tauto.
Qed.

(** A loop over [l] whose body, on states that satisfy [Inv], stores under
    the key of each item a value that depends on the item alone.  [proj]
    is the dict of the state the body assigns to. *)
Lemma for_each_stores {A S V : Type} (Inv : S -> Prop) (proj : S -> dict V)
  (key : A -> string) (Q : A -> V -> Prop)
  (body : S -> A -> result S) (l : list A) :
  (forall x, In x l ->
     exists v, Q x v /\
       forall s, Inv s ->
         exists s', body s x = Ok s' /\ Inv s'
                    /\ proj s' = setitem (proj s) (key x) v) ->
  NoDup (map key l) ->
  forall s0, Inv s0 ->
    exists r,
      for_each l body s0 = Ok r
      /\ Inv r
      /\ (forall x, In x l ->
            exists v, Q x v /\ getitem (proj r) (key x) = Some v)
      /\ (forall k, ~ In k (map key l) ->
            getitem (proj r) k = getitem (proj s0) k)
      /\ ((forall k, In k (keys (proj s0)) -> ~ In k (map key l)) ->
          keys (proj r) = keys (proj s0) ++ map key l).
Proof.
  induction l as [| x l IH]; intros Hbody Hnd s0 Hinv.
  - exists s0. simpl. repeat split; try assumption; try tauto.
    intros _. now rewrite app_nil_r.
  - simpl in Hnd. inversion Hnd as [| ? ? Hx Hnd']; subst.
    destruct (Hbody x (or_introl eq_refl)) as (v & HQ & Hstep).
    destruct (Hstep s0 Hinv) as (s1 & Hs1 & Hinv1 & Hproj1).
    destruct (IH (fun y Hy => Hbody y (or_intror Hy)) Hnd' s1 Hinv1)
      as (r & Hr & Hinvr & Hget & Hother & Hkeys).
    exists r. simpl. rewrite Hs1. cbn [bind].
    split; [exact Hr |]. split; [exact Hinvr |]. split; [| split].
    + intros y [<- | Hy].
      * exists v. split; [exact HQ |].
        rewrite (Hother (key x) Hx), Hproj1. apply getitem_setitem_same.
      * apply Hget, Hy.
    + intros k Hk. simpl in Hk.
      rewrite Hother by tauto. rewrite Hproj1.
      apply getitem_setitem_other. intros E. apply Hk. left. now symmetry.
    + intros Hfresh.
      assert (Hk1 : keys (proj s1) = keys (proj s0) ++ [key x]).
      { rewrite Hproj1. apply keys_setitem_fresh. intros Hin.
        apply (Hfresh _ Hin). simpl. now left. }
      rewrite Hkeys.
      * rewrite Hk1, <- app_assoc. reflexivity.
      * intros k. rewrite Hk1, in_app_iff. simpl.
        intros [Hin | [<- | []]]; [| exact Hx].
        intros Hl. apply (Hfresh _ Hin). simpl. now right.
Qed.

Lemma CL_season_step_stores (self : CL.SolarShadowAnalyzer)
  (item : string * CL.season) :
  (exists r, CL.season_step self [] item = Ok r) ->
  exists v, CL_stored self item v /\
    forall d, True ->
      exists d', CL.season_step self d item = Ok d' /\ True
                 /\ d' = setitem d (fst item) v.
Proof.
  destruct item as [k s]. unfold CL.season_step, CL_stored. simpl snd.
  destruct (CL.solar_elevation self (CL.solar_declination self (CL.day s)) 0)
    as [e | x]; cbn [bind]; [| intros [r Hr]; discriminate].
  destruct (CL.shadow_length self e) as [L | x] eqn:EL; cbn [bind];
    [| intros [r Hr]; discriminate].
  intros _. eexists. split.
  - exists e, L. repeat split. exact EL.
  - intros d _. eexists. repeat split.
Qed.

Lemma DS_resultados_step_stores (lat h : R)
  (item : string * DS.estacao_info) :
  (exists r, DS.resultados_step lat h [] item = Ok r) ->
  exists v, DS_stored lat h item v /\
    forall d, True ->
      exists d', DS.resultados_step lat h d item = Ok d' /\ True
                 /\ d' = setitem d (fst item) v.
Proof.
  destruct item as [k s]. unfold DS.resultados_step, DS_stored. simpl snd.
  destruct (DS.calcular_elevacao_solar lat
              (DS.calcular_declinacao_solar (DS.dia_ano s)) 0)
    as [e | x]; cbn [bind]; [| intros [r Hr]; discriminate].
  destruct (DS.calcular_comprimento_sombra h e) as [L | x] eqn:EL;
    cbn [bind]; [| intros [r Hr]; discriminate].
  intros _. eexists. split.
  - exists e, L. repeat split. exact EL.
  - intros d _. eexists. repeat split.
Qed.

(** X7: what [results[label]] holds.  When the input dict has distinct
    keys and no reference point raises on its own, the seasonal loop of CL
    (and of DS) returns a dict in which every label of the input is bound
    to the record computed from that label's own day: its declination,
    the noon elevation, the shadow length for that elevation, and its
    display name (its date); a label that is not in the input is not in
    the result. *)
Theorem seasonal_results_lookup (self : CL.SolarShadowAnalyzer)
  (lat h : R) (datas : dict DS.estacao_info) :
  NoDup (keys (CL.seasons self)) ->
  NoDup (keys datas) ->
  (forall item, In item (items (CL.seasons self)) ->
     exists r, CL.season_step self [] item = Ok r) ->
  (forall item, In item (items datas) ->
     exists r, DS.resultados_step lat h [] item = Ok r) ->
  (exists results,
      CL.calculate_seasonal_shadows self = Ok results
      /\ (forall k s, In (k, s) (items (CL.seasons self)) ->
            exists (e : R) (L : pyfloat),
              CL.solar_elevation self
                (CL.solar_declination self (CL.day s)) 0 = Ok e
              /\ CL.shadow_length self e = Ok L
              /\ getitem results k
                 = Some {| CL.declination :=
                             CL.solar_declination self (CL.day s);
                           CL.elevation := e;
                           CL.shadow_len := L;
                           CL.display_name := CL.name s |})
      /\ (forall k, ~ In k (keys (CL.seasons self)) ->
            getitem results k = None))
  /\ (exists resultados,
      DS.resultados_loop lat h datas = Ok resultados
      /\ (forall k s, In (k, s) (items datas) ->
            exists (e : R) (L : pyfloat),
              DS.calcular_elevacao_solar lat
                (DS.calcular_declinacao_solar (DS.dia_ano s)) 0 = Ok e
              /\ DS.calcular_comprimento_sombra h e = Ok L
              /\ getitem resultados k
                 = Some {| DS.declinacao :=
                             DS.calcular_declinacao_solar (DS.dia_ano s);
                           DS.elevacao_solar := e;
                           DS.comprimento_sombra := L;
                           DS.data_estacao := DS.data s |})
      /\ (forall k, ~ In k (keys datas) -> getitem resultados k = None)).
Proof.
  intros HndC HndD HokC HokD. split.
  - destruct (for_each_stores (fun _ => True) (fun d => d) fst
                (CL_stored self) (CL.season_step self)
                (items (CL.seasons self))
                (fun x Hx => CL_season_step_stores self x (HokC x Hx))
                HndC [] I)
      as (r & Hr & _ & Hget & Hother & _).
    exists r. split; [exact Hr |]. split.
    + intros k s Hin. destruct (Hget (k, s) Hin) as (v & (e & L & He & HL & ->) & Hv).
      exists e, L. auto.
    + intros k Hk. rewrite (Hother k Hk). reflexivity.
  - destruct (for_each_stores (fun _ => True) (fun d => d) fst
                (DS_stored lat h) (DS.resultados_step lat h) (items datas)
                (fun x Hx => DS_resultados_step_stores lat h x (HokD x Hx))
                HndD [] I)
      as (r & Hr & _ & Hget & Hother & _).
    exists r. split; [exact Hr |]. split.
    + intros k s Hin. destruct (Hget (k, s) Hin) as (v & (e & L & He & HL & ->) & Hv).
      exists e, L. auto.
    + intros k Hk. rewrite (Hother k Hk). reflexivity.
Qed.

(** The two shipped runs: no step raises. *)
Lemma CL_main_latitude_bounds :
  -21.74 <= CL.latitude CL.main_analyzer < -21.73.
Proof. simpl. lra. Qed.

Lemma CL_main_steps_ok (item : string * CL.season) :
  In item (items (CL.seasons CL.main_analyzer)) ->
  exists r, CL.season_step CL.main_analyzer [] item = Ok r.
Proof.
  destruct item as [k s]. intros Hin.
  assert (Hday : CL.day s = 355%Z \/ CL.day s = 172%Z \/ CL.day s = 79%Z
                 \/ CL.day s = 80%Z \/ CL.day s = 266%Z).
  { simpl in Hin.
    destruct Hin as [E | [E | [E | [E | []]]]]; inversion E; simpl; tauto. }
  destruct (reference_site_off_zenith _ _ CL_main_latitude_bounds Hday)
    as [H1 H2].
  now apply CL_season_step_ok.
Qed.

Lemma DS_script_steps_ok (item : string * DS.estacao_info) :
  In item (items DS.datas_estacoes) ->
  exists r,
    DS.resultados_step DS.latitude_decimal DS.altura_obstaculo [] item = Ok r.
Proof.
  destruct item as [k s]. intros Hin.
  assert (Hday : DS.dia_ano s = 355%Z \/ DS.dia_ano s = 172%Z
                 \/ DS.dia_ano s = 79%Z \/ DS.dia_ano s = 80%Z
                 \/ DS.dia_ano s = 266%Z).
  { simpl in Hin.
    destruct Hin as [E | [E | [E | [E | []]]]]; inversion E; simpl; tauto. }
  assert (Hlat : -21.74 <= DS.latitude_decimal < -21.73)
    by (pose proof DS_latitude_decimal_bounds; lra).
  destruct (reference_site_off_zenith _ _ Hlat Hday) as [H1 H2].
  now apply DS_resultados_step_ok.
Qed.

Lemma CL_main_keys_distinct : NoDup (keys (CL.seasons CL.main_analyzer)).
Proof. distinct_keys. Qed.

Lemma DS_script_keys_distinct : NoDup (keys DS.datas_estacoes).
Proof. distinct_keys. Qed.

Lemma seasonal_results_lookup_witness :
  exists results,
    CL.calculate_seasonal_shadows CL.main_analyzer = Ok results
    /\ (forall k s, In (k, s) (items (CL.seasons CL.main_analyzer)) ->
          exists (e : R) (L : pyfloat),
            CL.solar_elevation CL.main_analyzer
              (CL.solar_declination CL.main_analyzer (CL.day s)) 0 = Ok e
            /\ CL.shadow_length CL.main_analyzer e = Ok L
            /\ getitem results k
               = Some {| CL.declination :=
                           CL.solar_declination CL.main_analyzer (CL.day s);
                         CL.elevation := e;
                         CL.shadow_len := L;
                         CL.display_name := CL.name s |})
    /\ (forall k, ~ In k (keys (CL.seasons CL.main_analyzer)) ->
          getitem results k = None).
Proof.
  apply (seasonal_results_lookup CL.main_analyzer DS.latitude_decimal
           DS.altura_obstaculo DS.datas_estacoes
           CL_main_keys_distinct DS_script_keys_distinct
           CL_main_steps_ok DS_script_steps_ok).
Defined.

Lemma GE_season_step_stores (g : GE.globals) (item : string * Z) :
  (exists t, GE.season_step g item = Ok t) ->
  (exists L, GE_stored_shadow g item L /\
     forall s, GE_reads_as g s ->
       exists s', GE.season_step s item = Ok s' /\ GE_reads_as g s'
         /\ GE.shadow_results s'
            = setitem (GE.shadow_results s) (fst item) L)
  /\ (exists d, GE_stored_details g item d /\
     forall s, GE_reads_as g s ->
       exists s', GE.season_step s item = Ok s' /\ GE_reads_as g s'
         /\ GE.calculation_details s'
            = setitem (GE.calculation_details s) (fst item) d).
Proof.
  destruct item as [k n].
  unfold GE.season_step, GE_stored_shadow, GE_stored_details,
    GE.calculate_hour_angle. simpl snd. simpl fst.
  destruct (GE.calculate_solar_elevation (GE.latitude g)
              (GE.calculate_solar_declination n) 0) as [e | x] eqn:Ee;
    cbn [bind]; [| intros [t Ht]; discriminate].
  destruct (GE.calculate_shadow_length (GE.obstacle_height g) e)
    as [L | x] eqn:EL; cbn [bind]; [| intros [t Ht]; discriminate].
  intros _. split.
  - exists L. split; [exists e; split; [reflexivity | exact EL] |].
    intros s (Hlat & Hh & Hs). rewrite Hlat, Ee. cbn [bind].
    rewrite Hh, EL. cbn [bind]. eexists. split; [reflexivity |].
    split; [repeat split; assumption | reflexivity].
  - eexists. split; [exists e, L; repeat split; exact EL |].
    intros s (Hlat & Hh & Hs). rewrite Hlat, Ee. cbn [bind].
    rewrite Hh, EL. cbn [bind]. eexists. split; [reflexivity |].
    split; [repeat split; assumption | reflexivity].
Qed.

(** X8: the two dicts of GE agree.  When [seasons] has distinct keys
    and no reference point raises on its own, the seasonal block returns;
    [shadow_results] and [calculation_details] then have the keys of
    [seasons], in that order, and for every label the shadow length
    stored in [shadow_results] is the one stored in
    [calculation_details], next to the declination and the elevation it
    was computed from, in degrees, and an hour angle of 0.  A lookup
    [shadow_results[season]] for a season of [seasons] raises nothing. *)
Theorem GE_block_lookup (g : GE.globals) :
  NoDup (keys (GE.seasons g)) ->
  (forall item, In item (items (GE.seasons g)) ->
     exists t, GE.season_step g item = Ok t) ->
  exists g',
    GE.seasonal_block g = Ok g'
    /\ keys (GE.shadow_results g') = keys (GE.seasons g)
    /\ keys (GE.calculation_details g') = keys (GE.seasons g)
    /\ forall k n, In (k, n) (items (GE.seasons g)) ->
         exists (e : R) (L : pyfloat),
           GE.calculate_solar_elevation (GE.latitude g)
             (GE.calculate_solar_declination n) 0 = Ok e
           /\ GE.calculate_shadow_length (GE.obstacle_height g) e = Ok L
           /\ getitem (GE.shadow_results g') k = Some L
           /\ getitem (GE.calculation_details g') k
              = Some {| GE.declinacao_solar_graus :=
                          degrees (GE.calculate_solar_declination n);
                        GE.angulo_horario_graus := 0;
                        GE.elevacao_solar_graus := degrees e;
                        GE.comprimento_da_sombra := L |}.
Proof.
  intros Hnd Hok. unfold GE.seasonal_block.
  set (s0 := {| GE.latitude := GE.latitude g;
                GE.longitude := GE.longitude g;
                GE.obstacle_height := GE.obstacle_height g;
                GE.seasons := GE.seasons g;
                GE.shadow_results := [];
                GE.calculation_details := [] |}).
  assert (Hs0 : GE_reads_as g s0) by (repeat split).
  destruct (for_each_stores (GE_reads_as g) GE.shadow_results fst
              (GE_stored_shadow g) GE.season_step (items (GE.seasons g))
              (fun x Hx => proj1 (GE_season_step_stores g x (Hok x Hx)))
              Hnd s0 Hs0)
    as (r & Hr & _ & Hget & _ & Hkeys).
  destruct (for_each_stores (GE_reads_as g) GE.calculation_details fst
              (GE_stored_details g) GE.season_step (items (GE.seasons g))
              (fun x Hx => proj2 (GE_season_step_stores g x (Hok x Hx)))
              Hnd s0 Hs0)
    as (r' & Hr' & _ & Hget' & _ & Hkeys').
  assert (r' = r) by congruence. subst r'.
  exists r. split; [exact Hr |].
  split; [apply Hkeys; intros k [] |].
  split; [apply Hkeys'; intros k [] |].
  intros k n Hin.
  destruct (Hget (k, n) Hin) as (L & (e & He & HL) & HgL).
  destruct (Hget' (k, n) Hin) as (d & (e' & L' & He' & HL' & ->) & Hgd).
  simpl snd in *. simpl fst in *.
  assert (e' = e) by congruence. subst e'.
  assert (L' = L) by congruence. subst L'.
  exists e, L. repeat split; try assumption.
  rewrite Hgd. unfold degrees. do 2 f_equal. ring.
Qed.

Lemma GE_season_step_ok (g : GE.globals) (k : string) (n : Z) :
  Rabs (radians (GE.latitude g) - GE.calculate_solar_declination n) <= PI ->
  radians (GE.latitude g) <> GE.calculate_solar_declination n ->
  exists t, GE.season_step g (k, n) = Ok t.
Proof.
  intros Hb Hne. unfold GE.season_step, GE.calculate_hour_angle.
  rewrite GE_solar_elevation_value. cbv zeta.
  rewrite sin_alpha_noon, asin_cos by exact Hb. cbn [bind].
  set (theta := radians (GE.latitude g) - GE.calculate_solar_declination n)
    in *.
  assert (Hpos : 0 < Rabs theta) by (apply Rabs_pos_lt; unfold theta; lra).
  destruct (Rlt_dec 0 (PI / 2 - Rabs theta)) as [Hgt | Hle].
  - rewrite GE_shadow_length_finite by lra. cbn [bind].
    eexists. reflexivity.
  - rewrite GE_shadow_length_infinite by lra. cbn [bind].
    eexists. reflexivity.
Qed.

(** The declination of GE on the four days of its script. *)
Lemma GE_declination_355 : GE.calculate_solar_declination 355 < -0.4.
Proof.
  unfold GE.calculate_solar_declination. pose proof PI_bounds as HPI.
  set (x := 2 * PI / 365 * 355 - 1.39 - 3 * PI / 2).
  assert (Hx : 0 < x < 0.01) by (unfold x; lra).
  replace (2 * PI / 365 * 355 - 1.39) with (PI / 2 + x + PI)
    by (unfold x; field).
  rewrite neg_sin, sin_plus, sin_PI2, cos_PI2.
  assert (Hc : 1 - x * x / 2 <= cos x) by (apply cos_lower; lra).
  nra.
Qed.

Lemma GE_declination_equinox (n : Z) :
  n = 265%Z \/ n = 79%Z -> -0.05 < GE.calculate_solar_declination n < 0.
Proof.
  unfold GE.calculate_solar_declination. pose proof PI_bounds as HPI.
  intros [-> | ->].
  - set (y := 2 * PI / 365 * 265 - 1.39 - PI).
    assert (Hy : 0 < y < 0.05) by (unfold y; lra).
    replace (2 * PI / 365 * 265 - 1.39) with (y + PI) by (unfold y; field).
    rewrite neg_sin. pose proof (sin_small y Hy). lra.
  - set (y := - (2 * PI / 365 * 79 - 1.39)).
    assert (Hy : 0 < y < 0.05) by (unfold y; lra).
    replace (2 * PI / 365 * 79 - 1.39) with (- y) by (unfold y; ring).
    rewrite sin_neg. pose proof (sin_small y Hy). lra.
Qed.

Lemma GE_script_latitude_radians :
  -0.38 < radians (GE.latitude GE.script_globals) < -0.379.
Proof.
  unfold GE.script_globals, GE.dms_to_decimal, radians. simpl GE.latitude.
  replace (contains ["S"%string; "W"%string] "S") with true by reflexivity.
  pose proof PI_bounds as HPI. split; nra.
Qed.

Lemma GE_script_steps_ok (item : string * Z) :
  In item (items (GE.seasons GE.script_globals)) ->
  exists t, GE.season_step GE.script_globals item = Ok t.
Proof.
  destruct item as [k n]. intros Hin.
  assert (Hday : n = 355%Z \/ n = 172%Z \/ n = 265%Z \/ n = 79%Z).
  { simpl in Hin.
    destruct Hin as [E | [E | [E | [E | []]]]]; inversion E; tauto. }
  pose proof GE_script_latitude_radians as Hlat.
  pose proof (GE_declination_bound n) as Hb.
  pose proof PI_bounds as HPI.
  apply GE_season_step_ok.
  - unfold Rabs. destruct (Rcase_abs _); lra.
  - destruct Hday as [-> | [-> | Hn]].
    + pose proof GE_declination_355. lra.
    + pose proof GE_declination_172_pos. lra.
    + pose proof (GE_declination_equinox n Hn). lra.
Qed.

Lemma GE_script_keys_distinct : NoDup (keys (GE.seasons GE.script_globals)).
Proof. distinct_keys. Qed.

Lemma GE_block_lookup_witness :
  exists g',
    GE.seasonal_block GE.script_globals = Ok g'
    /\ keys (GE.shadow_results g') = keys (GE.seasons GE.script_globals)
    /\ keys (GE.calculation_details g') = keys (GE.seasons GE.script_globals)
    /\ forall k n, In (k, n) (items (GE.seasons GE.script_globals)) ->
         exists (e : R) (L : pyfloat),
           GE.calculate_solar_elevation (GE.latitude GE.script_globals)
             (GE.calculate_solar_declination n) 0 = Ok e
           /\ GE.calculate_shadow_length
                (GE.obstacle_height GE.script_globals) e = Ok L
           /\ getitem (GE.shadow_results g') k = Some L
           /\ getitem (GE.calculation_details g') k
              = Some {| GE.declinacao_solar_graus :=
                          degrees (GE.calculate_solar_declination n);
                        GE.angulo_horario_graus := 0;
                        GE.elevacao_solar_graus := degrees e;
                        GE.comprimento_da_sombra := L |}.
Proof.
  apply (GE_block_lookup GE.script_globals
           GE_script_keys_distinct GE_script_steps_ok).
Defined.

(** ** Scaling the charts *)

Lemma py_max_ge_l (a b : R) : a <= py_max a b.
Proof. unfold py_max. destruct (Rlt_dec a b); lra. Qed.

Lemma py_max_ge_r (a b : R) : b <= py_max a b.
Proof. unfold py_max. destruct (Rlt_dec a b); lra. Qed.

Lemma scaling_fold_ge_init (l : list pyfloat) (m : R) :
  m <= fold_left scaling_step l m.
Proof.
  revert m. induction l as [| L l IH]; intros m; simpl; [lra |].
  apply Rle_trans with (scaling_step m L); [| apply IH].
  destruct L; simpl; [apply py_max_ge_l | lra].
Qed.

Lemma scaling_fold_ge_elem (l : list pyfloat) (m x : R) :
  In (Finite x) l -> x <= fold_left scaling_step l m.
Proof.
  revert m. induction l as [| L l IH]; intros m; simpl; [tauto |].
  intros [-> | Hin]; [| now apply IH].
  apply Rle_trans with (scaling_step m (Finite x));
    [apply py_max_ge_r | apply scaling_fold_ge_init].
Qed.

Lemma scaling_fold_all_infinite (l : list pyfloat) (m : R) :
  (forall L, In L l -> L = Infinite) -> fold_left scaling_step l m = m.
Proof.
  revert m. induction l as [| L l IH]; intros m H; simpl; [reflexivity |].
  rewrite (H L (or_introl eq_refl)). simpl. apply IH.
  intros L' HL'. apply H. now right.
Qed.


Lemma max_shadow_for_scaling_unfold (sr : dict pyfloat) (h : R) :
  GE.max_shadow_for_scaling sr h
  = if Req_dec_T (fold_left scaling_step (values sr) 0) 0
    then h * 2 else fold_left scaling_step (values sr) 0.
Proof. reflexivity. Qed.

Lemma getitem_In_values {V : Type} (d : dict V) (k : string) (v : V) :
  getitem d k = Some v -> In v (values d).
Proof.
  induction d as [| [k' v'] d IH]; simpl; [discriminate |].
  destruct (String.eqb k' k).
  - intros E. injection E as ->. now left.
  - intros E. right. now apply IH.
Qed.

Lemma max_shadow_for_scaling_bounds (sr : dict pyfloat) (h : R) :
  0 <= h ->
  0 <= GE.max_shadow_for_scaling sr h
  /\ (0 < h -> 0 < GE.max_shadow_for_scaling sr h)
  /\ (forall x, In (Finite x) (values sr) ->
        x <= GE.max_shadow_for_scaling sr h).
Proof.
  intros Hh. rewrite max_shadow_for_scaling_unfold.
  pose proof (scaling_fold_ge_init (values sr) 0) as H0.
  destruct (Req_dec_T (fold_left scaling_step (values sr) 0) 0) as [E | E].
  - repeat split; try lra.
    intros x Hx. pose proof (scaling_fold_ge_elem _ 0 x Hx). lra.
  - repeat split; try lra.
    intros x Hx. apply (scaling_fold_ge_elem _ 0 x Hx).
Qed.

(** X9: the bars of GE's chart are scaled by the longest finite shadow.
    For an obstacle height that is not negative, the scale is at least
    every finite shadow length, positive when the height is, and twice the
    height when every shadow is infinite.  A shadow bar is then at most
    80 percent high (0 for an infinite shadow, not negative for a shadow
    that is not), while the obstacle bar is higher than 100 percent
    exactly when the obstacle is more than 1.25 times the scale. *)
Theorem GE_scaling (sr : dict pyfloat) (h : R) :
  0 <= h ->
  0 <= GE.max_shadow_for_scaling sr h
  /\ (0 < h -> 0 < GE.max_shadow_for_scaling sr h)
  /\ (forall x, In (Finite x) (values sr) ->
        x <= GE.max_shadow_for_scaling sr h)
  /\ ((forall L, In L (values sr) -> L = Infinite) ->
      GE.max_shadow_for_scaling sr h = h * 2)
  /\ (forall season L, getitem sr season = Some L ->
        exists b,
          GE.shadow_bar_height sr (GE.max_shadow_for_scaling sr h) season
          = Some b
          /\ b <= 80
          /\ (L = Infinite -> b = 0)
          /\ (forall x, L = Finite x -> 0 <= x -> 0 <= b))
  /\ (0 < GE.max_shadow_for_scaling sr h ->
      (100 < GE.obstacle_bar_height h (GE.max_shadow_for_scaling sr h)
       <-> 1.25 * GE.max_shadow_for_scaling sr h < h)).
Proof.
  intros Hh.
  destruct (max_shadow_for_scaling_bounds sr h Hh) as (H0 & Hpos & Hmax).
  split; [exact H0 |]. split; [exact Hpos |]. split; [exact Hmax |].
  split; [| split].
  - intros Hinf. rewrite max_shadow_for_scaling_unfold.
    rewrite (scaling_fold_all_infinite _ 0 Hinf).
    destruct (Req_dec_T 0 0) as [_ | E]; [reflexivity | now elim E].
  - intros season L Hget. unfold GE.shadow_bar_height.
    set (m := GE.max_shadow_for_scaling sr h) in *.
    destruct (Rlt_dec 0 m) as [Hm | Hm].
    + rewrite Hget. destruct L as [x |].
      * exists (x / m * 80). split; [reflexivity |].
        assert (Hx : x <= m) by (apply Hmax, (getitem_In_values _ _ _ Hget)).
        assert (Hq : x / m <= 1).
        { apply Rmult_le_reg_r with m; [exact Hm |].
          unfold Rdiv. rewrite Rmult_assoc, Rinv_l by lra. lra. }
        repeat split; try lra; [discriminate |].
        intros y E Hy. injection E as <-.
        assert (0 <= x / m).
        { unfold Rdiv. apply Rmult_le_pos; [exact Hy |].
          now apply Rlt_le, Rinv_0_lt_compat. }
        lra.
      * exists 0. repeat split; try lra. intros y E. discriminate.
    + exists 0. repeat split; intros; lra.
  - intros Hm. unfold GE.obstacle_bar_height.
    set (m := GE.max_shadow_for_scaling sr h) in *.
    destruct (Rlt_dec 0 m) as [_ | Hn]; [| contradiction].
    assert (Hq : h / m * m = h) by (field; lra).
    generalize dependent (h / m). intros q Hq.
    split; intros H; nra.
Qed.

Lemma GE_scaling_witness :
  0 <= GE.max_shadow_for_scaling
         [("a"%string, Finite 1.66); ("b"%string, Infinite)] 1.65.
Proof.
  assert (H : 0 <= 1.65) by lra.
  exact (proj1 (GE_scaling [("a"%string, Finite 1.66); ("b"%string, Infinite)]
                  1.65 H)).
Defined.



Lemma fold_py_max_ge_init (l : list R) (m : R) : m <= fold_left py_max l m.
Proof.
  revert m. induction l as [| y l IH]; intros m; simpl; [lra |].
  apply Rle_trans with (py_max m y); [apply py_max_ge_l | apply IH].
Qed.

Lemma fold_py_max_ge_elem (l : list R) (m y : R) :
  In y l -> y <= fold_left py_max l m.
Proof.
  revert m. induction l as [| z l IH]; intros m; simpl; [tauto |].
  intros [-> | Hin]; [| now apply IH].
  apply Rle_trans with (py_max m y);
    [apply py_max_ge_r | apply fold_py_max_ge_init].
Qed.

Lemma max_list_upper (l : list R) (y : R) :
  In y l -> exists m, max_list l = Ok m /\ y <= m.
Proof.
  destruct l as [| x l]; simpl; [tauto |].
  intros [-> | Hin]; eexists; split; try reflexivity.
  - apply fold_py_max_ge_init.
  - now apply fold_py_max_ge_elem.
Qed.

Lemma sombras_em_escala_In (resultados : dict DS.resultado)
  (r : DS.resultado) (c : R) :
  In r (values resultados) -> DS.comprimento_sombra r = Finite c ->
  In (c / 5) (DS.sombras_em_escala resultados).
Proof.
  intros Hin Hc. unfold DS.sombras_em_escala.
  apply in_flat_map. exists r. split; [exact Hin |].
  rewrite Hc. now left.
Qed.

Lemma sombras_em_escala_empty (resultados : dict DS.resultado) :
  (forall r, In r (values resultados) ->
     DS.comprimento_sombra r = Infinite) ->
  DS.sombras_em_escala resultados = [].
Proof.
  unfold DS.sombras_em_escala.
  induction (values resultados) as [| r l IH]; intros H; simpl;
    [reflexivity |].
  rewrite (H r (or_introl eq_refl)). simpl.
  apply IH. intros r' Hr'. apply H. now right.
Qed.

Lemma DS_finitas_In (resultados : dict DS.resultado) (k : string) (c : R) :
  In (k, c) (DS_finitas resultados) ->
  exists r, In r (values resultados) /\ DS.comprimento_sombra r = Finite c.
Proof.
  unfold DS_finitas. intros H. apply in_flat_map in H.
  destruct H as ([k' r] & Hin & H). simpl in H.
  destruct (DS.comprimento_sombra r) as [c' |] eqn:E; simpl in H;
    [| contradiction].
  destruct H as [H | []]. exists r. split.
  - apply (in_map snd) in Hin. exact Hin.
  - congruence.
Qed.

Lemma DS_finitas_cons (k : string) (r : DS.resultado)
  (l : dict DS.resultado) :
  DS_finitas ((k, r) :: l)
  = match DS.comprimento_sombra r with
    | Finite c => (k, c) :: DS_finitas l
    | Infinite => DS_finitas l
    end.
Proof.
  unfold DS_finitas, items. cbn [flat_map snd fst].
  destruct (DS.comprimento_sombra r); reflexivity.
Qed.

Lemma getindex_colors_lt (i : nat) :
  (i < 4)%nat -> exists c, getindex DS.colors i = Ok c /\ In c DS.colors.
Proof.
  intros H. unfold getindex.
  destruct (nth_error DS.colors i) as [c |] eqn:E.
  - exists c. split; [reflexivity |]. eapply nth_error_In; exact E.
  - apply nth_error_None in E. simpl in E. lia.
Qed.

Lemma getindex_colors_ge (i : nat) :
  (4 <= i)%nat -> getindex DS.colors i = Raise IndexError.
Proof.
  intros H. unfold getindex.
  destruct (nth_error DS.colors i) as [c |] eqn:E; [| reflexivity].
  assert (Hl : (i < List.length DS.colors)%nat).
  { apply nth_error_Some. congruence. }
  simpl in Hl. lia.
Qed.

(** The loop of the diagram from position [i] on: it goes through when
    every finite shadow sits at one of the first four positions. *)
Lemma DS_diagrama_loop_ok (l : list (string * DS.resultado)) :
  forall (i : nat) (acc : list DS.linha),
    (forall j k r c, nth_error l j = Some (k, r) ->
       DS.comprimento_sombra r = Finite c -> (i + j < 4)%nat) ->
    exists ls,
      for_each (enumerate_from i l) DS.diagrama_step acc = Ok (acc ++ ls)
      /\ map (fun x => (DS.rotulo x, DS.fim x)) ls
         = map (fun kc => (fst kc, DS.sombra_fim (snd kc))) (DS_finitas l)
      /\ (forall x, In x ls -> In (DS.cor x) DS.colors).
Proof.
  induction l as [| [k r] l IH]; intros i acc H.
  - exists []. rewrite app_nil_r. repeat split. intros x [].
  - assert (H' : forall j k' r' c, nth_error l j = Some (k', r') ->
                 DS.comprimento_sombra r' = Finite c -> (S i + j < 4)%nat).
    { intros j k' r' c Hn Hc.
      pose proof (H (S j) k' r' c Hn Hc). lia. }
    cbn [enumerate_from for_each]. unfold DS.diagrama_step at 1.
    rewrite DS_finitas_cons.
    destruct (DS.comprimento_sombra r) as [c |] eqn:E.
    + assert (Hi : (i < 4)%nat).
      { pose proof (H 0%nat k r c eq_refl E). lia. }
      destruct (getindex_colors_lt i Hi) as (col & Hcol & Hin).
      rewrite Hcol. cbn [bind].
      destruct (IH (S i)
                  (acc ++ [{| DS.rotulo := k; DS.fim := DS.sombra_fim c;
                              DS.cor := col |}]) H')
        as (ls & Hls & Hmap & Hcols).
      exists ({| DS.rotulo := k; DS.fim := DS.sombra_fim c; DS.cor := col |}
              :: ls).
      split; [rewrite Hls, <- app_assoc; reflexivity |]. split.
      * cbn [map app DS.rotulo DS.fim fst snd]. f_equal. exact Hmap.
      * intros x [<- | Hx]; [exact Hin | now apply Hcols].
    + cbn [bind app]. apply (IH (S i) acc H').
Qed.

(** It raises [IndexError] as soon as a finite shadow sits at the fifth
    position or later. *)
Lemma DS_diagrama_loop_raises (l : list (string * DS.resultado)) :
  forall (i : nat) (acc : list DS.linha),
    (exists j k r c, nth_error l j = Some (k, r)
       /\ DS.comprimento_sombra r = Finite c /\ (4 <= i + j)%nat) ->
    for_each (enumerate_from i l) DS.diagrama_step acc = Raise IndexError.
Proof.
  induction l as [| [k r] l IH]; intros i acc (j & k' & r' & c & Hn & Hc & Hj).
  - destruct j; discriminate.
  - cbn [enumerate_from for_each]. unfold DS.diagrama_step at 1.
    destruct (DS.comprimento_sombra r) as [c0 |] eqn:E.
    + destruct (Nat.lt_ge_cases i 4) as [Hi | Hi].
      * destruct (getindex_colors_lt i Hi) as (col & Hcol & _).
        rewrite Hcol. cbn [bind].
        destruct j as [| j]; [lia |].
        apply IH. exists j, k', r', c.
        repeat split; [exact Hn | exact Hc | lia].
      * rewrite (getindex_colors_ge i Hi). reflexivity.
    + cbn [bind]. destruct j as [| j].
      * simpl in Hn. congruence.
      * apply IH. exists j, k', r', c.
        repeat split; [exact Hn | exact Hc | lia].
Qed.

(** X11: the diagram of DS.  A finite shadow at the fifth position of
    [resultados] or later makes [colors[i]] raise [IndexError].  Otherwise,
    when at least one shadow is finite, the finite shadows are drawn in
    the order of the dict, each up to [0.25 + comprimento/5] in one of the
    four colours, and the upper x-limit that is set lies beyond the end of
    every line drawn.  When every shadow is infinite (or there is none),
    nothing is drawn and the maximum of the empty list raises
    [ValueError]. *)
Theorem DS_diagrama_sombra_outcome (resultados : dict DS.resultado) :
  ((exists j k r c,
       nth_error (items resultados) j = Some (k, r)
       /\ DS.comprimento_sombra r = Finite c /\ (4 <= j)%nat) ->
   DS.gerar_diagrama_sombra resultados = Raise IndexError)
  /\ ((forall j k r c,
         nth_error (items resultados) j = Some (k, r) ->
         DS.comprimento_sombra r = Finite c -> (j < 4)%nat) ->
      (exists r c, In r (values resultados)
                   /\ DS.comprimento_sombra r = Finite c) ->
      exists (linhas : list DS.linha) (x : R),
        DS.gerar_diagrama_sombra resultados = Ok (linhas, x)
        /\ map (fun l => (DS.rotulo l, DS.fim l)) linhas
           = map (fun kc => (fst kc, DS.sombra_fim (snd kc)))
               (DS_finitas resultados)
        /\ (forall l, In l linhas ->
              DS.fim l < x /\ In (DS.cor l) DS.colors))
  /\ ((forall r, In r (values resultados) ->
         DS.comprimento_sombra r = Infinite) ->
      DS.gerar_diagrama_sombra resultados = Raise ValueError).
Proof.
  unfold DS.gerar_diagrama_sombra, enumerate, items. split; [| split].
  - intros (j & k & r & c & Hn & Hc & Hj).
    rewrite (DS_diagrama_loop_raises resultados 0 []); [reflexivity |].
    exists j, k, r, c. repeat split; [exact Hn | exact Hc | lia].
  - intros Hpos (r & c & Hin & Hc).
    destruct (DS_diagrama_loop_ok resultados 0 []) as
      (ls & Hls & Hmap & Hcols).
    { intros j k r' c' Hn Hc'. simpl. now apply (Hpos j k r' c'). }
    rewrite Hls. cbn [bind app].
    destruct (max_list_upper _ _ (sombras_em_escala_In _ _ _ Hin Hc))
      as (m & Hm & _).
    rewrite Hm. cbn [bind]. exists ls, (m + 1).
    split; [reflexivity |]. split; [exact Hmap |].
    intros l Hl. split; [| now apply Hcols].
    assert (Hl' : In (DS.rotulo l, DS.fim l)
                    (map (fun kc => (fst kc, DS.sombra_fim (snd kc)))
                       (DS_finitas resultados))).
    { rewrite <- Hmap.
      apply (in_map (fun x => (DS.rotulo x, DS.fim x))). exact Hl. }
    apply in_map_iff in Hl'. destruct Hl' as ([k' c'] & Heq & Hfin).
    simpl in Heq.
    destruct (DS_finitas_In _ _ _ Hfin) as (r' & Hin' & Hc').
    destruct (max_list_upper _ _ (sombras_em_escala_In _ _ _ Hin' Hc'))
      as (m' & Hm' & Hle).
    assert (Em : m' = m) by congruence. subst m'.
    assert (Ef : DS.fim l = DS.sombra_fim c') by congruence.
    rewrite Ef. unfold DS.sombra_fim. lra.
  - intros Hinf.
    destruct (DS_diagrama_loop_ok resultados 0 []) as
      (ls & Hls & _ & _).
    { intros j k r c Hn Hc. exfalso.
      apply nth_error_In in Hn. apply (in_map snd) in Hn.
      rewrite (Hinf r Hn) in Hc. discriminate. }
    rewrite Hls. cbn [bind].
    rewrite (sombras_em_escala_empty _ Hinf). reflexivity.
Qed.

(** ** The extremes the report of CL prints *)

Lemma pyfloat_lt_irrefl (a : pyfloat) : pyfloat_lt a a = false.
Proof.
  destruct a as [x |]; simpl; [| reflexivity].
  destruct (Rlt_dec x x); [lra | reflexivity].
Qed.

Lemma pyfloat_lt_trans (a b c : pyfloat) :
  pyfloat_lt a b = true -> pyfloat_lt b c = true -> pyfloat_lt a c = true.
Proof.
  destruct a as [x |], b as [y |], c as [z |]; simpl;
    try discriminate; try reflexivity.
  destruct (Rlt_dec x y), (Rlt_dec y z), (Rlt_dec x z);
    try discriminate; try reflexivity; lra.
Qed.

Lemma pyfloat_lt_total (a b : pyfloat) :
  pyfloat_lt a b = false -> pyfloat_lt b a = false -> a = b.
Proof.
  destruct a as [x |], b as [y |]; simpl; try discriminate; try reflexivity.
  destruct (Rlt_dec x y), (Rlt_dec y x); try discriminate.
  intros _ _. f_equal. lra.
Qed.

Lemma pyfloat_lt_Infinite (a : pyfloat) :
  pyfloat_lt Infinite a = false.
Proof. reflexivity. Qed.

Lemma pyfloat_not_lt_trans (a b c : pyfloat) :
  pyfloat_lt a b = true -> pyfloat_lt a c = false -> pyfloat_lt b c = false.
Proof.
  intros Hab Hac. destruct (pyfloat_lt b c) eqn:E; [| reflexivity].
  rewrite (pyfloat_lt_trans _ _ _ Hab E) in Hac. discriminate.
Qed.

Lemma pyfloat_not_gt_trans (a b c : pyfloat) :
  pyfloat_lt b a = true -> pyfloat_lt c a = false -> pyfloat_lt c b = false.
Proof.
  intros Hba Hca. destruct (pyfloat_lt c b) eqn:E; [| reflexivity].
  rewrite (pyfloat_lt_trans _ _ _ E Hba) in Hca. discriminate.
Qed.

Lemma pyfloat_lt_le_trans (a b c : pyfloat) :
  pyfloat_lt a b = true -> pyfloat_lt c b = false -> pyfloat_lt a c = true.
Proof.
  destruct a as [x |], b as [y |], c as [z |]; simpl;
    try discriminate; try reflexivity.
  destruct (Rlt_dec x y), (Rlt_dec z y), (Rlt_dec x z);
    try discriminate; try reflexivity; lra.
Qed.

Lemma pyfloat_le_lt_trans (a b c : pyfloat) :
  pyfloat_lt b a = false -> pyfloat_lt b c = true -> pyfloat_lt a c = true.
Proof.
  destruct a as [x |], b as [y |], c as [z |]; simpl;
    try discriminate; try reflexivity.
  destruct (Rlt_dec y x), (Rlt_dec y z), (Rlt_dec x z);
    try discriminate; try reflexivity; lra.
Qed.

Section Extremes.

Context {A : Type} (key : A -> pyfloat).

Lemma fold_max_by (l : list A) (x : A) :
  let m := fold_left
             (fun m y => if pyfloat_lt (key m) (key y) then y else m) l x in
  In m (x :: l)
  /\ pyfloat_lt (key m) (key x) = false
  /\ forall y, In y l -> pyfloat_lt (key m) (key y) = false.
Proof.
  revert x. induction l as [| z l IH]; intros x; cbn [fold_left].
  - split; [now left |]. split; [apply pyfloat_lt_irrefl | intros y []].
  - destruct (pyfloat_lt (key x) (key z)) eqn:E.
    + destruct (IH z) as (Hin & Hz & Hall). cbv zeta in *.
      set (m := fold_left _ l z) in *.
      split; [right; exact Hin |]. split.
      * destruct (pyfloat_lt (key m) (key x)) eqn:E'; [| reflexivity].
        rewrite (pyfloat_lt_trans _ _ _ E' E) in Hz. discriminate.
      * intros y [<- | Hy]; [exact Hz | now apply Hall].
    + destruct (IH x) as (Hin & Hx & Hall). cbv zeta in *.
      set (m := fold_left _ l x) in *.
      split; [destruct Hin as [Hin | Hin]; [now left | right; now right] |].
      split; [exact Hx |].
      intros y [<- | Hy]; [| now apply Hall].
      destruct (pyfloat_lt (key m) (key z)) eqn:E'; [| reflexivity].
      rewrite (pyfloat_lt_le_trans _ _ _ E' E) in Hx. discriminate.
Qed.

Lemma fold_min_by (l : list A) (x : A) :
  let m := fold_left
             (fun m y => if pyfloat_lt (key y) (key m) then y else m) l x in
  In m (x :: l)
  /\ pyfloat_lt (key x) (key m) = false
  /\ forall y, In y l -> pyfloat_lt (key y) (key m) = false.
Proof.
  revert x. induction l as [| z l IH]; intros x; cbn [fold_left].
  - split; [now left |]. split; [apply pyfloat_lt_irrefl | intros y []].
  - destruct (pyfloat_lt (key z) (key x)) eqn:E.
    + destruct (IH z) as (Hin & Hz & Hall). cbv zeta in *.
      set (m := fold_left _ l z) in *.
      split; [right; exact Hin |]. split.
      * destruct (pyfloat_lt (key x) (key m)) eqn:E'; [| reflexivity].
        rewrite (pyfloat_lt_trans _ _ _ E E') in Hz. discriminate.
      * intros y [<- | Hy]; [exact Hz | now apply Hall].
    + destruct (IH x) as (Hin & Hx & Hall). cbv zeta in *.
      set (m := fold_left _ l x) in *.
      split; [destruct Hin as [Hin | Hin]; [now left | right; now right] |].
      split; [exact Hx |].
      intros y [<- | Hy]; [| now apply Hall].
      destruct (pyfloat_lt (key z) (key m)) eqn:E'; [| reflexivity].
      rewrite (pyfloat_le_lt_trans _ _ _ E E') in Hx. discriminate.
Qed.

Lemma max_by_spec (l : list A) :
  l <> [] ->
  exists m, max_by key l = Ok m /\ In m l
            /\ forall y, In y l -> pyfloat_lt (key m) (key y) = false.
Proof.
  destruct l as [| x l]; [congruence |]. intros _.
  destruct (fold_max_by l x) as (Hin & Hx & Hall).
  eexists. split; [reflexivity |]. split; [exact Hin |].
  intros y [<- | Hy]; [exact Hx | now apply Hall].
Qed.

Lemma min_by_spec (l : list A) :
  l <> [] ->
  exists m, min_by key l = Ok m /\ In m l
            /\ forall y, In y l -> pyfloat_lt (key y) (key m) = false.
Proof.
  destruct l as [| x l]; [congruence |]. intros _.
  destruct (fold_min_by l x) as (Hin & Hx & Hall).
  eexists. split; [reflexivity |]. split; [exact Hin |].
  intros y [<- | Hy]; [exact Hx | now apply Hall].
Qed.

End Extremes.

(** X12: the two figures of the main result of CL's report.  On a
    result dict that is not empty both are returned, each is the shadow
    length of one of the seasons, no season has a longer shadow than the
    maximum or a shorter one than the minimum, and the maximum is
    [float('inf')] as soon as one season has an infinite shadow.  On an
    empty dict [max] and [min] raise [ValueError]. *)
Theorem CL_report_extremes (results : dict CL.season_result) :
  (results <> [] ->
   exists M m : pyfloat,
     CL.report_max_shadow results = Ok M
     /\ CL.report_min_shadow results = Ok m
     /\ In M (map CL.shadow_len (values results))
     /\ In m (map CL.shadow_len (values results))
     /\ (forall r, In r (values results) ->
           pyfloat_lt M (CL.shadow_len r) = false
           /\ pyfloat_lt (CL.shadow_len r) m = false)
     /\ ((exists r, In r (values results) /\ CL.shadow_len r = Infinite) ->
         M = Infinite))
  /\ (results = [] ->
      CL.report_max_shadow results = Raise ValueError
      /\ CL.report_min_shadow results = Raise ValueError).
Proof.
  split.
  - intros Hne.
    assert (Hv : values results <> []).
    { destruct results; [congruence | discriminate]. }
    destruct (max_by_spec CL.shadow_len _ Hv) as (rM & HM & HinM & HallM).
    destruct (min_by_spec CL.shadow_len _ Hv) as (rm & Hm & Hinm & Hallm).
    exists (CL.shadow_len rM), (CL.shadow_len rm).
    unfold CL.report_max_shadow, CL.report_min_shadow.
    rewrite HM, Hm. cbn [bind].
    split; [reflexivity |]. split; [reflexivity |].
    split; [now apply in_map |]. split; [now apply in_map |].
    split.
    + intros r Hr. split; [now apply HallM | now apply Hallm].
    + intros (r & Hr & Hinf). specialize (HallM r Hr). rewrite Hinf in HallM.
      destruct (CL.shadow_len rM); [discriminate | reflexivity].
  - intros ->. split; reflexivity.
Qed.

(** ** The dates of CG *)

Lemma CG_dia_juliano_range (dia mes n : Z) :
  CG.dia_juliano dia mes = Ok n -> (1 <= n <= 365)%Z.
Proof.
  unfold CG.dia_juliano.
  destruct ((1 <=? mes) && (mes <=? 12))%Z eqn:Em; [| discriminate].
  apply andb_prop in Em. destruct Em as [Hm1 Hm2].
  apply Z.leb_le in Hm1. apply Z.leb_le in Hm2.
  assert (Hmes : (mes = 1 \/ mes = 2 \/ mes = 3 \/ mes = 4 \/ mes = 5
                  \/ mes = 6 \/ mes = 7 \/ mes = 8 \/ mes = 9 \/ mes = 10
                  \/ mes = 11 \/ mes = 12)%Z) by lia.
  destruct Hmes as [-> | [-> | [-> | [-> | [-> | [-> | [-> | [-> | [-> |
                   [-> | [-> | ->]]]]]]]]]]];
    match goal with
    | |- context [nth ?i ?l ?d] =>
        let v := eval vm_compute in (nth i l d) in
        change (nth i l d) with v
    end;
    match goal with
    | |- context [CG.sum_Z ?l] =>
        let v := eval vm_compute in (CG.sum_Z l) in
        change (CG.sum_Z l) with v
    end;
    match goal with
    | |- context [((1 <=? dia) && (dia <=? ?k))%Z] =>
        destruct ((1 <=? dia) && (dia <=? k))%Z eqn:Ed; [| discriminate]
    end;
    apply andb_prop in Ed; destruct Ed as [Hd1 Hd2];
    apply Z.leb_le in Hd1; apply Z.leb_le in Hd2;
    intros E;
    apply (f_equal (fun r => match r with Ok v => v | Raise _ => 0%Z end))
      in E;
    cbv beta iota in E; lia.
Qed.

Lemma CG_declinacao_solar_cooper (dia mes : Z) (decl : R) :
  CG.declinacao_solar dia mes = Ok decl ->
  exists n, CG.dia_juliano dia mes = Ok n /\ decl = cooper_degrees n.
Proof.
  unfold CG.declinacao_solar.
  destruct (CG.dia_juliano dia mes) as [n | e]; cbn [bind]; [| discriminate].
  fold (cooper_degrees n). intros E. exists n. split; [reflexivity |].
  congruence.
Qed.

Lemma tan_radians_ge_near_45 (e : R) :
  44.8 <= e -> e < 90 -> 0.99 <= tan (radians e).
Proof.
  intros H1 H2.
  assert (H0 : 44.8 <= 44.8 <= 45) by lra.
  pose proof (tan_radians_near_45 44.8 H0) as [Hlo _].
  destruct H1 as [Hlt | <-]; [| exact Hlo].
  apply Rle_trans with (tan (radians 44.8)); [exact Hlo |].
  apply Rlt_le, tan_radians_lt; lra.
Qed.

(** X13: the unguarded division of CG is never reached with a sun at or
    below the horizon.  For every date of 2025 that [datetime] accepts,
    the day number is between 1 and 365, the declination between -23.45
    and 23.45 degrees, and the noon elevation at the script's latitude
    between 44.8 and 90 degrees; below 90 degrees the shadow of the
    1.65 m obstacle is returned, positive and at most 1.67 m. *)
Theorem CG_script_elevation_positive (dia mes : Z) (decl : R) :
  CG.declinacao_solar dia mes = Ok decl ->
  (exists n, CG.dia_juliano dia mes = Ok n /\ (1 <= n <= 365)%Z)
  /\ -23.45 <= decl <= 23.45
  /\ 44.8 <= CG.elevacao_solar CG.latitude_deg decl <= 90
  /\ (CG.elevacao_solar CG.latitude_deg decl < 90 ->
      exists L : R,
        CG.comprimento_sombra CG.altura_obstaculo
          (CG.elevacao_solar CG.latitude_deg decl) = Ok (Finite L)
        /\ 0 < L <= 1.67).
Proof.
  intros Hd.
  destruct (CG_declinacao_solar_cooper dia mes decl Hd) as (n & Hn & ->).
  pose proof (cooper_degrees_bound n) as Hb.
  assert (He : 44.8 <= CG.elevacao_solar CG.latitude_deg (cooper_degrees n)
               <= 90).
  { unfold CG.elevacao_solar, CG.latitude_deg.
    pose proof (Rabs_pos (- (21 + 44 / 60 + 21.3 / 3600) - cooper_degrees n)).
    unfold Rabs in *. destruct (Rcase_abs _); lra. }
  split; [exists n; split; [exact Hn | now apply (CG_dia_juliano_range dia mes)] |].
  split; [exact Hb |]. split; [exact He |].
  intros Hlt.
  set (e := CG.elevacao_solar CG.latitude_deg (cooper_degrees n)) in *.
  exists (CG.altura_obstaculo / tan (radians e)).
  rewrite CG_comprimento_sombra_finite by lra.
  split; [reflexivity |].
  assert (Ht : 0.99 <= tan (radians e))
    by (apply tan_radians_ge_near_45; lra).
  unfold CG.altura_obstaculo.
  clearbody e. generalize dependent (tan (radians e)). intros t Ht.
  split.
  - apply positive_quotient; lra.
  - apply Rmult_le_reg_r with t; [lra |].
    unfold Rdiv. rewrite Rmult_assoc, Rinv_l by lra. lra.
Qed.

Lemma CG_script_elevation_positive_witness :
  (exists n, CG.dia_juliano 21 6 = Ok n /\ (1 <= n <= 365)%Z)
  /\ -23.45 <= cooper_degrees 172 <= 23.45
  /\ 44.8 <= CG.elevacao_solar CG.latitude_deg (cooper_degrees 172) <= 90
  /\ (CG.elevacao_solar CG.latitude_deg (cooper_degrees 172) < 90 ->
      exists L : R,
        CG.comprimento_sombra CG.altura_obstaculo
          (CG.elevacao_solar CG.latitude_deg (cooper_degrees 172))
        = Ok (Finite L)
        /\ 0 < L <= 1.67).
Proof.
  apply (CG_script_elevation_positive 21 6 (cooper_degrees 172)).
  reflexivity.
Defined.

(** ** The declination through the years *)

(** X14: over the day numbers of a year the declination has a period of
    365 days.  For a day number [n] from 1 to 366, CL, DS and GE give day
    [n + 365] the value of day [n]; day 366 of a leap year is treated as
    day 1.  The Cooper value of CL and DS stays between -23.45 and 23.45
    degrees. *)
Theorem declination_period (self : CL.SolarShadowAnalyzer) (n : Z) :
  (1 <= n <= 366)%Z ->
  CL.solar_declination self (n + 365) = CL.solar_declination self n
  /\ DS.calcular_declinacao_solar (n + 365) = DS.calcular_declinacao_solar n
  /\ GE.calculate_solar_declination (n + 365)
     = GE.calculate_solar_declination n
  /\ -23.45 <= CL.solar_declination self n <= 23.45
  /\ -23.45 <= DS.calcular_declinacao_solar n <= 23.45.
Proof.
  intros _.
  assert (Hc : cooper_degrees (n + 365) = cooper_degrees n).
  { unfold cooper_degrees. f_equal.
    replace (radians (360 / 365 * IZR (284 + (n + 365))))
      with (radians (360 / 365 * IZR (284 + n)) + 2 * INR 1 * PI).
    - apply sin_period.
    - rewrite !plus_IZR. unfold radians. simpl. field. }
  rewrite !CL_solar_declination_cooper, !DS_declinacao_solar_cooper.
  repeat split; try exact Hc; try apply cooper_degrees_bound.
  unfold GE.calculate_solar_declination. f_equal.
  replace (2 * PI / 365 * IZR (n + 365) - 1.39)
    with (2 * PI / 365 * IZR n - 1.39 + 2 * INR 1 * PI).
  - apply sin_period.
  - rewrite plus_IZR. simpl. lra.
Qed.

Lemma declination_period_witness :
  CL.solar_declination CL.main_analyzer (1 + 365)
  = CL.solar_declination CL.main_analyzer 1
  /\ DS.calcular_declinacao_solar (1 + 365) = DS.calcular_declinacao_solar 1
  /\ GE.calculate_solar_declination (1 + 365)
     = GE.calculate_solar_declination 1
  /\ -23.45 <= CL.solar_declination CL.main_analyzer 1 <= 23.45
  /\ -23.45 <= DS.calcular_declinacao_solar 1 <= 23.45.
Proof.
  apply (declination_period CL.main_analyzer 1). lia.
Defined.

(** ** Which season gives the longest and the shortest shadow *)

Lemma In_getitem {V : Type} (d : dict V) (k : string) (v : V) :
  NoDup (keys d) -> In (k, v) d -> getitem d k = Some v.
Proof.
  induction d as [| [k' v'] d IH]; simpl; intros Hnd Hin; [contradiction |].
  inversion Hnd as [| ? ? Hk Hnd']; subst.
  destruct Hin as [E | Hin].
  - injection E as -> ->. now rewrite String.eqb_refl.
  - destruct (String.eqb k' k) eqn:E.
    + apply String.eqb_eq in E. subst k'.
      elim Hk. apply (in_map fst) in Hin. exact Hin.
    + now apply IH.
Qed.

Lemma In_values_getitem {V : Type} (d : dict V) (v : V) :
  NoDup (keys d) -> In v (values d) ->
  exists k, In k (keys d) /\ getitem d k = Some v.
Proof.
  intros Hnd Hin. unfold values in Hin. apply in_map_iff in Hin.
  destruct Hin as ([k v'] & <- & Hin). exists k. split.
  - apply (in_map fst) in Hin. exact Hin.
  - now apply In_getitem.
Qed.

Lemma noon_shadow_increasing (h a1 a2 : R) :
  0 < h -> 0 < a1 -> a1 < a2 -> a2 < 90 ->
  0 < noon_shadow h a1 < noon_shadow h a2.
Proof.
  intros Hh H0 H1 H2. unfold noon_shadow.
  destruct (tan_radians_increasing (90 - a2) (90 - a1)) as [Ht1 Ht2];
    try lra.
  apply (quotient_decreasing h _ _ Hh Ht1 Ht2).
Qed.

Lemma CL_noon_record (self : CL.SolarShadowAnalyzer) (n : Z) :
  0 < Rabs (CL.latitude self - cooper_degrees n) < 90 ->
  CL.solar_elevation self (CL.solar_declination self n) 0
  = Ok (90 - Rabs (CL.latitude self - cooper_degrees n))
  /\ CL.shadow_length self
       (90 - Rabs (CL.latitude self - cooper_degrees n))
     = Ok (Finite (noon_shadow (CL.obstacle_height self)
                     (Rabs (CL.latitude self - cooper_degrees n)))).
Proof.
  intros Ha. split.
  - rewrite CL_solar_declination_cooper, CL_solar_elevation_value.
    rewrite noon_elevation_closed_form by lra. reflexivity.
  - rewrite CL_shadow_length_finite by lra. reflexivity.
Qed.

(** The four angles for a latitude of the southern tropics. *)
Lemma tropics_angles (lat : R) :
  -23.4 <= lat <= -13 ->
  0 < Rabs (lat - cooper_degrees 355)
  /\ Rabs (lat - cooper_degrees 355) < Rabs (lat - cooper_degrees 80)
  /\ Rabs (lat - cooper_degrees 355) < Rabs (lat - cooper_degrees 266)
  /\ Rabs (lat - cooper_degrees 80) < Rabs (lat - cooper_degrees 172)
  /\ Rabs (lat - cooper_degrees 266) < Rabs (lat - cooper_degrees 172)
  /\ Rabs (lat - cooper_degrees 172) < 90.
Proof.
  intros Hlat.
  pose proof cooper_degrees_355_bounds as H355.
  pose proof cooper_degrees_172_bounds as H172.
  pose proof (cooper_degrees_equinox_bounds 80 ltac:(tauto)) as H80.
  pose proof (cooper_degrees_equinox_bounds 266 ltac:(tauto)) as H266.
  rewrite (Rabs_pos_eq (lat - cooper_degrees 355)) by lra.
  rewrite (Rabs_of_nonpos (lat - cooper_degrees 80)) by lra.
  rewrite (Rabs_of_nonpos (lat - cooper_degrees 266)) by lra.
  rewrite (Rabs_of_nonpos (lat - cooper_degrees 172)) by lra.
  repeat split; lra.
Qed.

Lemma CL_init_items (lat lon h : R) (k : string) (s : CL.season) :
  In (k, s) (items (CL.seasons (CL.init lat lon h))) ->
  CL.day s = 355%Z \/ CL.day s = 80%Z \/ CL.day s = 172%Z
  \/ CL.day s = 266%Z.
Proof.
  intros Hin. simpl in Hin.
  destruct Hin as [E | [E | [E | [E | []]]]]; inversion E; simpl; tauto.
Qed.

Lemma CL_init_solstices (lat lon h : R) :
  In ("Solstício de Inverno"%string,
      {| CL.day := 172; CL.name := "Inverno (21 Jun)" |})
    (items (CL.seasons (CL.init lat lon h)))
  /\ In ("Solstício de Verão"%string,
         {| CL.day := 355; CL.name := "Verão (21 Dez)" |})
       (items (CL.seasons (CL.init lat lon h))).
Proof. simpl. tauto. Qed.

Lemma CL_init_keys_distinct (lat lon h : R) :
  NoDup (keys (CL.seasons (CL.init lat lon h))).
Proof. distinct_keys. Qed.

Lemma pyfloat_lt_Finite (x y : R) :
  x < y -> pyfloat_lt (Finite x) (Finite y) = true.
Proof. intros H. simpl. destruct (Rlt_dec x y); [reflexivity | lra]. Qed.

(** What the loop of CL stores when on none of the four days the sun is
    at the zenith or below the horizon at noon. *)
Lemma CL_init_results (lat lon h : R) :
  (forall n, n = 355%Z \/ n = 80%Z \/ n = 172%Z \/ n = 266%Z ->
     0 < Rabs (lat - cooper_degrees n) < 90) ->
  exists results,
    CL.calculate_seasonal_shadows (CL.init lat lon h) = Ok results
    /\ keys results = keys (CL.seasons (CL.init lat lon h))
    /\ forall k s, In (k, s) (items (CL.seasons (CL.init lat lon h))) ->
         exists v,
           getitem results k = Some v
           /\ CL.shadow_len v
              = Finite (noon_shadow h
                          (Rabs (lat - cooper_degrees (CL.day s)))).
Proof.
  intros Hdays.
  set (self := CL.init lat lon h).
  assert (Hangle : forall k s, In (k, s) (items (CL.seasons self)) ->
            0 < Rabs (CL.latitude self - cooper_degrees (CL.day s)) < 90).
  { intros k s Hin. change (CL.latitude self) with lat.
    apply Hdays, (CL_init_items lat lon h k s Hin). }
  assert (Hok : forall item, In item (items (CL.seasons self)) ->
            exists r, CL.season_step self [] item = Ok r).
  { intros [k s] Hin. pose proof (Hangle k s Hin) as Ha.
    apply CL_season_step_ok; [lra |].
    intros E. rewrite E in Ha.
    replace (cooper_degrees (CL.day s) - cooper_degrees (CL.day s)) with 0
      in Ha by ring.
    rewrite Rabs_R0 in Ha. lra. }
  destruct (for_each_stores (fun _ => True) (fun d => d) fst
              (CL_stored self) (CL.season_step self)
              (items (CL.seasons self))
              (fun x Hx => CL_season_step_stores self x (Hok x Hx))
              (CL_init_keys_distinct lat lon h) [] I)
    as (r & Hr & _ & Hget & _ & Hkeys).
  exists r. split; [exact Hr |].
  split; [apply Hkeys; intros k [] |].
  intros k s Hin.
  destruct (Hget (k, s) Hin) as (v & (e & L & He & HL & ->) & Hv).
  simpl snd in *. simpl fst in *.
  destruct (CL_noon_record self (CL.day s) (Hangle k s Hin)) as [He' HL'].
  assert (e = 90 - Rabs (CL.latitude self - cooper_degrees (CL.day s)))
    by congruence.
  subst e. rewrite HL' in HL. injection HL as <-.
  eexists. split; [exact Hv | reflexivity].
Qed.

Lemma CL_tropics_results (lat lon h : R) :
  0 < h -> -23.4 <= lat <= -13 ->
  exists results,
    CL.calculate_seasonal_shadows (CL.init lat lon h) = Ok results
    /\ keys results = keys (CL.seasons (CL.init lat lon h))
    /\ forall k s, In (k, s) (items (CL.seasons (CL.init lat lon h))) ->
         exists v,
           getitem results k = Some v
           /\ CL.shadow_len v
              = Finite (noon_shadow h
                          (Rabs (lat - cooper_degrees (CL.day s)))).
Proof.
  intros Hh Hlat. apply CL_init_results.
  destruct (tropics_angles lat Hlat) as (H0 & H1 & H2 & H3 & H4 & H5).
  intros n [-> | [-> | [-> | ->]]]; lra.
Qed.

(** X15: the report of CL names the right solstices in the southern
    tropics.  For a latitude between -23.4 and -13 degrees and any
    positive obstacle height, the seasonal computation returns, the
    maximum the report prints is the shadow stored for the winter solstice
    (day 172) and the minimum is the one stored for the summer solstice
    (day 355), both finite and positive. *)
Theorem CL_report_names_the_solstices (lat lon h : R) :
  0 < h -> -23.4 <= lat <= -13 ->
  exists (results : dict CL.season_result) (rW rS : CL.season_result)
         (Lw Ls : R),
    CL.calculate_seasonal_shadows (CL.init lat lon h) = Ok results
    /\ getitem results "Solstício de Inverno" = Some rW
    /\ getitem results "Solstício de Verão" = Some rS
    /\ CL.shadow_len rW = Finite Lw
    /\ CL.shadow_len rS = Finite Ls
    /\ CL.report_max_shadow results = Ok (Finite Lw)
    /\ CL.report_min_shadow results = Ok (Finite Ls)
    /\ 0 < Ls < Lw.
Proof.
  intros Hh Hlat.
  destruct (tropics_angles lat Hlat) as (H0 & H1 & H2 & H3 & H4 & H5).
  destruct (CL_tropics_results lat lon h Hh Hlat) as (r & Hr & Hkeys & Hget).
  destruct (CL_init_solstices lat lon h) as [HinW HinS].
  destruct (Hget _ _ HinW) as (rW & HgW & HsW).
  destruct (Hget _ _ HinS) as (rS & HgS & HsS).
  cbn [CL.day] in HsW, HsS.
  set (A := fun n => Rabs (lat - cooper_degrees n)) in *.
  assert (Hcase : forall v, In v (values r) ->
            exists n, CL.shadow_len v = Finite (noon_shadow h (A n))
                      /\ (n = 355%Z \/ n = 80%Z \/ n = 172%Z \/ n = 266%Z)).
  { intros v Hv.
    assert (Hnd : NoDup (keys r))
      by (rewrite Hkeys; apply CL_init_keys_distinct).
    destruct (In_values_getitem r v Hnd Hv) as (k & Hk & Hgk).
    rewrite Hkeys in Hk. unfold keys in Hk. apply in_map_iff in Hk.
    destruct Hk as ([k' s] & Hfst & Hin). simpl in Hfst. subst k'.
    destruct (Hget k s Hin) as (v' & Hgv' & Hsv').
    assert (v' = v) by congruence. subst v'.
    exists (CL.day s). split; [exact Hsv' |].
    apply (CL_init_items lat lon h k s Hin). }
  assert (Hmono : forall n m, 0 < A n -> A n < A m -> A m < 90 ->
            0 < noon_shadow h (A n) < noon_shadow h (A m)).
  { intros n m. apply noon_shadow_increasing. exact Hh. }
  assert (H355 : 0 < A 355%Z) by exact H0.
  assert (Hne : values r <> []).
  { intros E. apply getitem_In_values in HgW. rewrite E in HgW. exact HgW. }
  destruct (max_by_spec CL.shadow_len _ Hne) as (rM & HM & HinM & HallM).
  destruct (min_by_spec CL.shadow_len _ Hne) as (rm & Hm & Hinm & Hallm).
  assert (HeqM : CL.shadow_len rM = Finite (noon_shadow h (A 172%Z))).
  { pose proof (HallM rW (getitem_In_values _ _ _ HgW)) as Hle.
    rewrite HsW in Hle.
    destruct (Hcase rM HinM) as (n & Hn & [-> | [-> | [-> | ->]]]);
      rewrite Hn in Hle |- *; try reflexivity; exfalso;
      rewrite pyfloat_lt_Finite in Hle; try discriminate;
      apply Hmono; unfold A; lra. }
  assert (Heqm : CL.shadow_len rm = Finite (noon_shadow h (A 355%Z))).
  { pose proof (Hallm rS (getitem_In_values _ _ _ HgS)) as Hle.
    rewrite HsS in Hle.
    destruct (Hcase rm Hinm) as (n & Hn & [-> | [-> | [-> | ->]]]);
      rewrite Hn in Hle |- *; try reflexivity; exfalso;
      rewrite pyfloat_lt_Finite in Hle; try discriminate;
      apply Hmono; unfold A; lra. }
  exists r, rW, rS, (noon_shadow h (A 172%Z)), (noon_shadow h (A 355%Z)).
  unfold CL.report_max_shadow, CL.report_min_shadow.
  rewrite HM, Hm. cbn [bind]. rewrite HeqM, Heqm.
  repeat split; try assumption.
  - apply (Hmono 355%Z 172%Z); unfold A; lra.
  - apply (Hmono 355%Z 172%Z); unfold A; lra.
Qed.

Lemma CL_report_names_the_solstices_witness :
  exists (results : dict CL.season_result) (rW rS : CL.season_result)
         (Lw Ls : R),
    CL.calculate_seasonal_shadows CL.main_analyzer = Ok results
    /\ getitem results "Solstício de Inverno" = Some rW
    /\ getitem results "Solstício de Verão" = Some rS
    /\ CL.shadow_len rW = Finite Lw
    /\ CL.shadow_len rS = Finite Ls
    /\ CL.report_max_shadow results = Ok (Finite Lw)
    /\ CL.report_min_shadow results = Ok (Finite Ls)
    /\ 0 < Ls < Lw.
Proof.
  apply (CL_report_names_the_solstices
           (-21 - 44 / 60 - 21.3 / 3600) (-48 - 6 / 60 - 21.4 / 3600) 1.65).
  - lra.
  - lra.
Defined.

(** The four angles nearer to the equator. *)
Lemma low_latitude_angles (lat : R) :
  -10 <= lat <= -2.1 ->
  0 < Rabs (lat - cooper_degrees 80)
  /\ Rabs (lat - cooper_degrees 80) < Rabs (lat - cooper_degrees 355)
  /\ Rabs (lat - cooper_degrees 355) < 90
  /\ 0 < Rabs (lat - cooper_degrees 266) < 90
  /\ 0 < Rabs (lat - cooper_degrees 172) < 90.
Proof.
  intros Hlat.
  pose proof cooper_degrees_355_bounds as H355.
  pose proof cooper_degrees_172_bounds as H172.
  pose proof (cooper_degrees_equinox_bounds 80 ltac:(tauto)) as H80.
  pose proof (cooper_degrees_equinox_bounds 266 ltac:(tauto)) as H266.
  rewrite (Rabs_pos_eq (lat - cooper_degrees 355)) by lra.
  rewrite (Rabs_of_nonpos (lat - cooper_degrees 80)) by lra.
  rewrite (Rabs_of_nonpos (lat - cooper_degrees 266)) by lra.
  rewrite (Rabs_of_nonpos (lat - cooper_degrees 172)) by lra.
  repeat split; lra.
Qed.

(** X16: nearer to the equator the shortest shadow is not the one of the
    summer solstice.  For a latitude between -10 and -2.1 degrees and any
    positive obstacle height, the seasonal computation returns and the
    minimum the report prints is strictly shorter than the shadow stored
    for the summer solstice (day 355): the autumn equinox (day 80) already
    has a shorter one. *)
Theorem CL_report_minimum_near_equator (lat lon h : R) :
  0 < h -> -10 <= lat <= -2.1 ->
  exists (results : dict CL.season_result) (rS rE : CL.season_result)
         (Ls Le m : R),
    CL.calculate_seasonal_shadows (CL.init lat lon h) = Ok results
    /\ getitem results "Solstício de Verão" = Some rS
    /\ getitem results "Equinócio de Outono" = Some rE
    /\ CL.shadow_len rS = Finite Ls
    /\ CL.shadow_len rE = Finite Le
    /\ CL.report_min_shadow results = Ok (Finite m)
    /\ m <= Le /\ Le < Ls.
Proof.
  intros Hh Hlat.
  destruct (low_latitude_angles lat Hlat) as (H0 & H1 & H2 & H3 & H4).
  destruct (CL_init_results lat lon h) as (r & Hr & Hkeys & Hget).
  { intros n [-> | [-> | [-> | ->]]]; lra. }
  assert (HinS : In ("Solstício de Verão"%string,
                     {| CL.day := 355; CL.name := "Verão (21 Dez)" |})
                   (items (CL.seasons (CL.init lat lon h))))
    by (simpl; tauto).
  assert (HinE : In ("Equinócio de Outono"%string,
                     {| CL.day := 80; CL.name := "Outono (21 Mar)" |})
                   (items (CL.seasons (CL.init lat lon h))))
    by (simpl; tauto).
  destruct (Hget _ _ HinS) as (rS & HgS & HsS).
  destruct (Hget _ _ HinE) as (rE & HgE & HsE).
  cbn [CL.day] in HsS, HsE.
  assert (Hne : values r <> []).
  { intros E. apply getitem_In_values in HgS. rewrite E in HgS. exact HgS. }
  destruct (min_by_spec CL.shadow_len _ Hne) as (rm & Hm & Hinm & Hallm).
  assert (Hnd : NoDup (keys r))
    by (rewrite Hkeys; apply CL_init_keys_distinct).
  destruct (In_values_getitem r rm Hnd Hinm) as (k & Hk & Hgk).
  rewrite Hkeys in Hk. unfold keys in Hk. apply in_map_iff in Hk.
  destruct Hk as ([k' s] & Hfst & Hin). simpl in Hfst. subst k'.
  destruct (Hget k s Hin) as (v' & Hgv' & Hsv').
  assert (v' = rm) by congruence. subst v'.
  pose proof (Hallm rE (getitem_In_values _ _ _ HgE)) as Hle.
  rewrite HsE, Hsv' in Hle. simpl in Hle.
  destruct (Rlt_dec _ _) as [_ | Hnlt] in Hle; [discriminate |].
  eexists r, rS, rE, _, _, _.
  unfold CL.report_min_shadow. rewrite Hm. cbn [bind]. rewrite Hsv'.
  repeat split; try eassumption.
  - lra.
  - apply noon_shadow_increasing; assumption.
Qed.

Lemma CL_report_minimum_near_equator_witness :
  exists (results : dict CL.season_result) (rS rE : CL.season_result)
         (Ls Le m : R),
    CL.calculate_seasonal_shadows (CL.init (-8) (-35) 1.65) = Ok results
    /\ getitem results "Solstício de Verão" = Some rS
    /\ getitem results "Equinócio de Outono" = Some rE
    /\ CL.shadow_len rS = Finite Ls
    /\ CL.shadow_len rE = Finite Le
    /\ CL.report_min_shadow results = Ok (Finite m)
    /\ m <= Le /\ Le < Ls.
Proof.
  apply (CL_report_minimum_near_equator (-8) (-35) 1.65).
  - lra.
  - lra.
Defined.

(** ** The clamp of GE over binary64, for every input *)

Section Binary64Clamp.

Import Floats.
Local Open Scope float_scope.

Lemma B64_clamp_in_domain (x : float) :
  ltb (B64.py_max (-1) (B64.py_min 1 x)) (-1) = false
  /\ ltb 1 (B64.py_max (-1) (B64.py_min 1 x)) = false.
Proof.
  unfold B64.py_max, B64.py_min.
  destruct (ltb x 1) eqn:E1.
  - destruct (ltb (-1) x) eqn:E2.
    + split; [apply (B64_ltb_antisym _ _ E2) | apply (B64_ltb_antisym _ _ E1)].
    + split; reflexivity.
  - split; reflexivity.
Qed.

(** X17: over binary64, whatever the C library returns for sine, cosine
    and inverse sine, the elevation of GE returns for all inputs that are
    not infinite (a NaN included): the value it hands to [math.asin] is neither below
    -1 nor above 1, and the result is that inverse sine when it is
    positive and 0 otherwise. *)
Theorem B64_GE_clamp_absorbs_rounding
  (libm_sin libm_cos libm_asin : float -> float)
  (latitude declination hour_angle : float) :
  is_infinity (B64.radians latitude) = false ->
  is_infinity declination = false ->
  is_infinity hour_angle = false ->
  exists x : float,
    ltb x (-1) = false
    /\ ltb 1 x = false
    /\ B64.GE_calculate_solar_elevation libm_sin libm_cos libm_asin
         latitude declination hour_angle
       = Ok (if ltb 0 (libm_asin x) then libm_asin x else 0).
Proof.
  intros H1 H2 H3.
  unfold B64.GE_calculate_solar_elevation, B64.math_sin, B64.math_cos.
  rewrite H1, H2, H3. cbn [bind].
  match goal with
  | |- context [B64.py_max (-1) (B64.py_min 1 ?s)] =>
      exists (B64.py_max (-1) (B64.py_min 1 s));
      destruct (B64_clamp_in_domain s) as [Hlo Hhi]
  end.
  split; [exact Hlo |]. split; [exact Hhi |].
  unfold B64.math_asin. rewrite Hlo, Hhi. reflexivity.
Qed.

Lemma B64_GE_clamp_absorbs_rounding_witness :
  exists x : float,
    ltb x (-1) = false
    /\ ltb 1 x = false
    /\ B64.GE_calculate_solar_elevation
         (fun _ => B64.sin_radians_12) (fun _ => B64.cos_radians_12)
         (fun x => x) 12 (B64.radians 12) 0
       = Ok (if ltb 0 x then x else 0).
Proof.
  apply (B64_GE_clamp_absorbs_rounding
           (fun _ => B64.sin_radians_12) (fun _ => B64.cos_radians_12)
           (fun x => x) 12 (B64.radians 12) 0).
  - vm_compute. reflexivity.
  - vm_compute. reflexivity.
  - vm_compute. reflexivity.
Defined.

End Binary64Clamp.

(** ** The run of CG *)

Lemma cooper_degrees_265 : cooper_degrees 265 = - (23.45 * sin (3 * PI / 365)).
Proof.
  unfold cooper_degrees.
  replace (radians (360 / 365 * IZR (284 + 265)))
    with (3 * PI / 365 + PI + 2 * INR 1 * PI)
    by (unfold radians; simpl; field).
  rewrite sin_period, neg_sin. ring.
Qed.

Lemma cooper_degrees_265_bounds : -2 < cooper_degrees 265 < 0.
Proof.
  rewrite cooper_degrees_265. pose proof PI_bounds as HPI.
  assert (0 < sin (3 * PI / 365) < 0.05) by (apply sin_small; lra). lra.
Qed.

Lemma CG_latitude_bounds : -21.74 <= CG.latitude_deg < -21.73.
Proof. unfold CG.latitude_deg. lra. Qed.

Lemma CG_shadow_of_day (n : Z) :
  n = 355%Z \/ n = 79%Z \/ n = 172%Z \/ n = 265%Z ->
  exists L : R,
    CG.comprimento_sombra CG.altura_obstaculo
      (CG.elevacao_solar CG.latitude_deg (cooper_degrees n)) = Ok (Finite L)
    /\ 0 < L <= 1.67.
Proof.
  intros Hn. pose proof CG_latitude_bounds as Hlat.
  pose proof (cooper_degrees_bound n) as Hb.
  assert (Hne : CG.latitude_deg <> cooper_degrees n).
  { destruct Hn as [-> | [-> | [-> | ->]]].
    - pose proof cooper_degrees_355_bounds. lra.
    - pose proof (cooper_degrees_equinox_bounds 79 ltac:(tauto)). lra.
    - pose proof cooper_degrees_172_bounds. lra.
    - pose proof cooper_degrees_265_bounds. lra. }
  assert (He : 44.8 <= CG.elevacao_solar CG.latitude_deg (cooper_degrees n)
               < 90).
  { unfold CG.elevacao_solar.
    assert (0 < Rabs (CG.latitude_deg - cooper_degrees n))
      by (apply Rabs_pos_lt; lra).
    assert (Rabs (CG.latitude_deg - cooper_degrees n) <= 45.2).
    { unfold Rabs. destruct (Rcase_abs _); lra. }
    lra. }
  set (e := CG.elevacao_solar CG.latitude_deg (cooper_degrees n)) in *.
  exists (CG.altura_obstaculo / tan (radians e)).
  rewrite CG_comprimento_sombra_finite by lra.
  split; [reflexivity |].
  assert (Ht : 0.99 <= tan (radians e))
    by (apply tan_radians_ge_near_45; lra).
  unfold CG.altura_obstaculo.
  clearbody e. generalize dependent (tan (radians e)). intros t Ht.
  split.
  - apply positive_quotient; lra.
  - apply Rmult_le_reg_r with t; [lra |].
    unfold Rdiv. rewrite Rmult_assoc, Rinv_l by lra. lra.
Qed.

Lemma CG_resultados_step_stores (item : string * (Z * Z)) :
  In item (items CG.estacoes) ->
  exists v, CG_stored item v /\
    forall d, True ->
      exists d', CG.resultados_step d item = Ok d' /\ True
                 /\ d' = setitem d (fst item) v.
Proof.
  intros Hin.
  assert (Hn : exists n, CG.dia_juliano (fst (snd item)) (snd (snd item))
                         = Ok n
                 /\ (n = 355%Z \/ n = 79%Z \/ n = 172%Z \/ n = 265%Z)).
  { simpl in Hin.
    destruct Hin as [<- | [<- | [<- | [<- | []]]]];
      eexists; (split; [reflexivity | tauto]). }
  destruct Hn as (n & Hn & Hcase).
  destruct (CG_shadow_of_day n Hcase) as (L & HL & Hb).
  destruct item as [k [dia mes]]. simpl fst in *. simpl snd in *.
  eexists. split.
  - exists n, L. simpl. repeat split; try eassumption; apply Hb.
  - intros d _. unfold CG.resultados_step, CG.declinacao_solar.
    rewrite Hn. cbn [bind]. fold (cooper_degrees n).
    rewrite HL. cbn [bind]. eexists. repeat split.
Qed.

(** X18: the script CG runs through.  Its four dates are days 355, 79,
    172 and 265 of 2025; [resultados] is returned with the four labels in
    the order of [estacoes], each bound to the Cooper declination of its
    day, the noon elevation [90 - |lat - decl|] and a finite shadow
    between 0 and 1.67 m: the division without a guard meets neither a
    zero tangent nor a sun below the horizon. *)
Theorem CG_script_run :
  exists r : dict CG.resultado,
    CG.resultados = Ok r
    /\ keys r = keys CG.estacoes
    /\ forall k dia mes, In (k, (dia, mes)) (items CG.estacoes) ->
         exists (n : Z) (L : R),
           CG.dia_juliano dia mes = Ok n
           /\ (n = 355%Z \/ n = 79%Z \/ n = 172%Z \/ n = 265%Z)
           /\ getitem r k
              = Some {| CG.declinacao := cooper_degrees n;
                        CG.elevacao :=
                          CG.elevacao_solar CG.latitude_deg
                            (cooper_degrees n);
                        CG.sombra := Finite L |}
           /\ 0 < L <= 1.67.
Proof.
  assert (Hnd : NoDup (map fst (items CG.estacoes))) by distinct_keys.
  destruct (for_each_stores (fun _ => True) (fun d => d) fst CG_stored
              CG.resultados_step (items CG.estacoes)
              CG_resultados_step_stores Hnd [] I)
    as (r & Hr & _ & Hget & _ & Hkeys).
  exists r. split; [exact Hr |].
  split; [apply Hkeys; intros k [] |].
  intros k dia mes Hin.
  destruct (Hget _ Hin) as (v & (n & L & Hn & Hcase & -> & Hb) & Hv).
  exists n, L. repeat split; try assumption; apply Hb.
Qed.
